(** * Phishing Awareness Bot: the scoring engine of [detector.py] and [utils.py]

    A shallow embedding of [PhishDetector.analyze] and of the helpers of
    [utils.py], with the properties of the engine proved over it.

    Modelling conventions.
    - A Python [str] is a [list ascii]: the code points below 256 (Latin-1).
      Character classes ([\s], [\w], [str.lower]) are the ones CPython applies
      to these code points.
    - A Python [int] is a [Z]; [len] is [Z.of_nat (length _)].
    - The quotient [total / max_possible] is a Python [float]: an IEEE 754
      binary64 number, here a primitive float of the kernel.
    - A call that may raise lives in the monad [Exc]; [try: ... except
      Exception:] is [try_except].
    - The third-party libraries ([urllib.parse], [tldextract], [email]) are
      not code of this repository: the engine is parametric in them (class
      [Libs]), and every call into them may raise. *)

From Stdlib Require Import ZArith Ascii String List Bool Lia.
From Stdlib Require Import Floats.
From stdpp Require Import base option list gmap strings.

Local Open Scope Z_scope.

(** ** Text *)

Abbreviation text := (list ascii).

Definition str (s : string) : text := list_ascii_of_string s.

Definition code (c : ascii) : N := N_of_ascii c.

Definition in_range (lo hi : N) (c : ascii) : bool :=
  (N.leb lo (code c) && N.leb (code c) hi)%bool.

(** [str.lower] on one code point: A-Z, and the upper-case letters of the
    Latin-1 supplement (0xC0-0xDE without the multiplication sign 0xD7).
    Beyond Latin-1 [str.lower] can turn one character into two (U+0130);
    such text is outside this model. *)
Definition lower_char (c : ascii) : ascii :=
  if (in_range 65 90 c || (in_range 192 222 c && negb (N.eqb (code c) 215)))%bool
  then ascii_of_N (code c + 32)
  else c.

Definition lower (s : text) : text := map lower_char s.

(** [\s] of a [str] pattern. *)
Definition is_space (c : ascii) : bool :=
  (in_range 9 13 c || in_range 28 32 c || N.eqb (code c) 133 || N.eqb (code c) 160)%bool.

(** [[0-9]]. *)
Definition is_digit (c : ascii) : bool := in_range 48 57 c.

(** [\w] of a [str] pattern: [str.isalnum] or the underscore. *)
Definition is_word (c : ascii) : bool :=
  (is_digit c || in_range 65 90 c || in_range 97 122 c || N.eqb (code c) 95
   || N.eqb (code c) 170 || in_range 178 179 c || N.eqb (code c) 181
   || in_range 185 186 c || in_range 188 190 c
   || in_range 192 214 c || in_range 216 246 c || in_range 248 255 c)%bool.

Definition ascii_eqb (a b : ascii) : bool := Ascii.eqb a b.

(** [s.startswith(p)]. *)
Fixpoint startswith (s p : text) : bool :=
  match p, s with
  | [], _ => true
  | _ :: _, [] => false
  | b :: p', a :: s' => (ascii_eqb a b && startswith s' p')%bool
  end.

(** [s.endswith(p)]. *)
Definition endswith (s p : text) : bool := startswith (rev s) (rev p).

(** [p in s]. *)
Fixpoint contains (s p : text) : bool :=
  (startswith s p ||
   match s with
   | [] => false
   | _ :: s' => contains s' p
   end)%bool.

(** [s.count(c)] for a one-character [c]. *)
Definition count_char (c : ascii) (s : text) : Z :=
  Z.of_nat (length (filter (fun a => ascii_eqb a c = true) s)).

(** [s.split(c)] for a one-character separator. *)
Fixpoint split_on (c : ascii) (s : text) : list text :=
  match s with
  | [] => [[]]
  | a :: s' =>
      if ascii_eqb a c then [] :: split_on c s'
      else match split_on c s' with
           | [] => [[a]]
           | p :: ps => (a :: p) :: ps
           end
  end.

(** [l[-1]] of a list known to be non-empty ([split] never returns []). *)
Definition last_item (l : list text) : text := List.last l [].

(** ** Floats: [int((total / max_possible) * 100)] *)

(** [int(x)] of a finite float: truncation toward zero. *)
Definition int_of_float (x : float) : Z :=
  match Prim2SF x with
  | S754_finite s m e =>
      let mag := match e with
                 | Z0 => Z.pos m
                 | Zpos p => Z.pos m * 2 ^ Z.pos p
                 | Zneg p => Z.pos m / 2 ^ Z.pos p
                 end in
      if s then - mag else mag
  | _ => 0
  end.

(** [float(n)] for an [int] that a binary64 holds exactly. *)
Definition float_of_int (n : Z) : float :=
  match n with
  | Z0 => PrimFloat.zero
  | Zpos _ => PrimFloat.of_uint63 (Uint63.of_Z n)
  | Zneg _ => PrimFloat.opp (PrimFloat.of_uint63 (Uint63.of_Z (- n)))
  end.

(** [a / b] on two [int]s (true division), [b] non-zero. *)
Definition true_div (a b : Z) : float :=
  PrimFloat.div (float_of_int a) (float_of_int b).

Definition normalize (total max_possible : Z) : Z :=
  let score :=
    if Z.eqb max_possible 0 then 0
    else int_of_float (PrimFloat.mul (true_div total max_possible) (float_of_int 100)) in
  Z.max 0 (Z.min 100 score).

(** ** Exceptions *)

Inductive Exc (A : Type) : Type :=
  | Ret (a : A)
  | Raise.
Arguments Ret {A} a.
Arguments Raise {A}.

#[global] Instance Exc_ret : MRet Exc := fun A a => Ret a.
#[global] Instance Exc_bind : MBind Exc := fun A B k m =>
  match m with
  | Ret a => k a
  | Raise => Raise
  end.

(** [try: body  except Exception: handler]. *)
Definition try_except {A} (body handler : Exc A) : Exc A :=
  match body with
  | Ret a => Ret a
  | Raise => handler
  end.

(** [for x in l: s = body(s, x)]. *)
Fixpoint for_each {A S} (body : S -> A -> Exc S) (l : list A) (s : S) : Exc S :=
  match l with
  | [] => Ret s
  | x :: l' => s' ← body s x; for_each body l' s'
  end.

(** [[x for x in l if p(x)]]. *)
Definition filter_exc {A} (p : A -> Exc bool) (l : list A) : Exc (list A) :=
  for_each (fun acc x => b ← p x; Ret (if b : bool then acc ++ [x] else acc)) l [].

(** Truth value of a [str]. *)
Definition truthy (s : text) : bool :=
  match s with
  | [] => false
  | _ :: _ => true
  end.

(** [x or ''] for an [x] that is a [str] or [None]. *)
Definition or_empty (x : option text) : text := default [] x.

Definition len {A} (l : list A) : Z := Z.of_nat (length l).

(** ** The regular expressions of [utils.py] and [detector.py] *)

Definition take_while {A} (p : A -> bool) : list A -> list A :=
  fix go l :=
    match l with
    | [] => []
    | a :: l' => if p a then a :: go l' else []
    end.

(** The negated class of [url_regex]: any character but white space, the
    apostrophe (39) and the double quote (34). *)
Definition url_char (c : ascii) : bool :=
  negb (is_space c || N.eqb (code c) 39 || N.eqb (code c) 34)%bool.

(** A literal prefix followed by one or more [url_char] (greedy), matched
    at the start of [l]. *)
Definition match_prefixed (p l : text) : option text :=
  if startswith l p then
    match take_while url_char (drop (length p) l) with
    | [] => None
    | run => Some (p ++ run)
    end
  else None.

(** [url_regex], the alternation of [https?://] and [www\.] each followed by
    a run of [url_char], matched at the start of [l]: the optional [s] is
    tried first, the second alternative last. *)
Definition url_match_at (l : text) : option text :=
  match match_prefixed (str "https://") l with
  | Some m => Some m
  | None =>
      match match_prefixed (str "http://") l with
      | Some m => Some m
      | None => match_prefixed (str "www.") l
      end
  end.

(** [url_regex.findall]: scan from the left; after a match the scan resumes
    at its end ([skip] counts the characters of the match still to pass). *)
Fixpoint findall_from (skip : nat) (l : text) : list text :=
  match l with
  | [] => []
  | _ :: l' =>
      match skip with
      | S k => findall_from k l'
      | O =>
          match url_match_at l with
          | Some m => m :: findall_from (length m - 1) l'
          | None => findall_from 0 l'
          end
      end
  end.

Definition url_findall (t : text) : list text := findall_from 0 t.

(** [[0-9]{1,n}] at the start of [l]: what is left after each way to match,
    the longest (greedy) first. *)
Fixpoint digit_runs (n : nat) (l : text) : list text :=
  match n, l with
  | S n', c :: l' => if is_digit c then digit_runs n' l' ++ [l'] else []
  | _, _ => []
  end.

(** [\.] *)
Definition dot (l : text) : list text :=
  match l with
  | c :: l' => if ascii_eqb c "." then [l'] else []
  | [] => []
  end.

(** [(?:[0-9]{1,3}\.)] *)
Definition group_dot (l : text) : list text := flat_map dot (digit_runs 3 l).

Definition is_word_opt (c : option ascii) : bool :=
  match c with
  | Some a => is_word a
  | None => false
  end.

(** [\b] between the character [prev] before the position and the rest [l]. *)
Definition word_boundary (prev : option ascii) (l : text) : bool :=
  xorb (is_word_opt prev) (is_word_opt (head l)).

(** The rest of the pattern after the digits of the last group: [\b], with a
    digit before the position. *)
Definition end_boundary (l : text) : bool := word_boundary (Some "0"%char) l.

(** [(?:[0-9]{1,3}\.){3}[0-9]{1,3}\b] matched at the start of [l], with
    backtracking over the lengths of the groups. *)
Definition ip_match_here (l : text) : bool :=
  existsb end_boundary
    (flat_map (digit_runs 3) (flat_map group_dot (flat_map group_dot (group_dot l)))).

Fixpoint ip_search_from (prev : option ascii) (l : text) : bool :=
  ((word_boundary prev l && ip_match_here l) ||
   match l with
   | [] => false
   | c :: l' => ip_search_from (Some c) l'
   end)%bool.

(** [bool(IP_REGEX.search(host))]. *)
Definition IP_REGEX_search (host : text) : bool := ip_search_from None host.

(** [[\w\.-]]. *)
Definition addr_char (c : ascii) : bool :=
  (is_word c || ascii_eqb c "." || ascii_eqb c "-")%bool.

(** [[\w\.-]+@[\w\.-]+] matched at the start of [l]. The class excludes [@],
    so the first run is the longest one and must be followed by [@]. *)
Definition addr_match_at (l : text) : option text :=
  match take_while addr_char l with
  | [] => None
  | a =>
      match drop (length a) l with
      | c :: rest =>
          if ascii_eqb c "@" then
            match take_while addr_char rest with
            | [] => None
            | b => Some (a ++ c :: b)
            end
          else None
      | [] => None
      end
  end.

(** [re.search] of the address pattern: the leftmost match, [m.group(0)]. *)
Fixpoint addr_search (l : text) : option text :=
  match addr_match_at l with
  | Some m => Some m
  | None =>
      match l with
      | [] => None
      | _ :: l' => addr_search l'
      end
  end.

(** ** The libraries the engine calls *)

(** What [utils.py] uses of [urllib.parse], [tldextract] and [email]. Each
    call may raise. *)
Class Libs := {
  (** [urlparse(u).hostname]: a [str] or [None]. *)
  urlparse_hostname : text -> Exc (option text);
  (** [tldextract.extract(host).registered_domain]. *)
  registered_domain : text -> Exc text;
  (** [email.message.EmailMessage]. *)
  Message : Type;
  (** [email.message_from_string(raw, policy=default)]. *)
  message_from_string : text -> Exc Message;
  (** [msg[name]]: the header as a [str], or [None]. *)
  msg_getitem : Message -> text -> Exc (option text);
  (** [msg.walk()], the parts it yields. *)
  msg_walk : Message -> Exc (list Message);
  (** [part.get_content_disposition()]. *)
  get_content_disposition : Message -> Exc (option text);
  (** [part.get_filename(failobj)]. *)
  get_filename : Message -> text -> Exc text
}.

(** ** utils.py *)

Definition SUSPICIOUS_EXT : list text :=
  [str ".exe"; str ".scr"; str ".bat"; str ".cmd"; str ".vbs"; str ".js";
   str ".jar"; str ".msi"; str ".ps1"].

Definition PHISHING_KEYWORDS : list text :=
  [str "urgent"; str "verify"; str "verify your account";
   str "update your account"; str "password";
   str "confirm"; str "click here"; str "account suspended";
   str "limited time"; str "immediately";
   str "login to"; str "reset your password"; str "bank"; str "paypal";
   str "ssn"; str "social security"].

Definition extract_urls (t : text) : Exc (list text) :=
  Ret (url_findall t).

(** [url if url.startswith('http') else 'http://' + url]. *)
Definition with_scheme (url : text) : text :=
  if startswith url (str "http") then url else str "http://" ++ url.

Section Engine.
Context `{L : Libs}.

Definition is_ip_url (url : text) : Exc bool :=
  try_except
    (parsed_hostname ← urlparse_hostname (with_scheme url);
     let host := or_empty parsed_hostname in
     Ret (IP_REGEX_search host))
    (Ret false).

Definition domain_from_url (url : text) : Exc text :=
  try_except
    (parsed_hostname ← urlparse_hostname (with_scheme url);
     let host := or_empty parsed_hostname in
     domain ← registered_domain host;
     Ret (if truthy domain then lower domain else lower host))
    (Ret []).

Definition extract_sender_from_headers (raw_email : text) : Exc (text * text) :=
  try_except
    (msg ← message_from_string raw_email;
     f ← msg_getitem msg (str "From");
     let from_hdr := or_empty f in
     r ← msg_getitem msg (str "Reply-To");
     let reply_to := or_empty r in
     Ret (from_hdr, reply_to))
    (Ret ([], [])).

(** The body of the loop over the parts. The order in which the set
    [SUSPICIOUS_EXT] is iterated is not specified; every iteration appends
    the same [fn]. *)
Definition attachment_step (exts : list text) (part : Message) : Exc (list text) :=
  cd ← get_content_disposition part;
  if bool_decide (cd = Some (str "attachment")) then
    f ← get_filename part [];
    let fn := or_empty (Some f) in
    Ret (fold_left
           (fun exts ext => if endswith (lower fn) ext then exts ++ [fn] else exts)
           SUSPICIOUS_EXT exts)
  else Ret exts.

Definition find_attachments (raw_email : text) : Exc (list text) :=
  try_except
    (msg ← message_from_string raw_email;
     parts ← msg_walk msg;
     for_each attachment_step parts [])
    (Ret []).

End Engine.

(** ** detector.py *)

(** What the f-string of an explanation interpolates; the rendering of the
    text itself is not modelled. *)
Inductive Detail : Type :=
  | DList (items : list text)
  | DCount (n : Z)
  | DMismatch (sender_domain : text) (link_domains : list text).

(** An entry of [breakdown]: [(name, val, explanation)]. *)
Definition Signal : Type := string * Z * Detail.

Definition signal_name (s : Signal) : string := s.1.1.
Definition signal_val (s : Signal) : Z := s.1.2.

(** The values of the returned [dict]. *)
Inductive Value : Type :=
  | VInt (z : Z)
  | VStr (s : text)
  | VList (l : list text)
  | VBreakdown (l : list Signal).

(** [self.weights]. *)
Definition weights : gmap string Z :=
  list_to_map
    [("suspicious_url", 30); ("ip_url", 20); ("http_not_https", 10);
     ("multiple_links", 8); ("urgent_language", 15);
     ("suspicious_attachment", 25); ("sender_mismatch", 25);
     ("bad_tld", 12)]%string.

(** [self.weights[k]]: a missing key raises [KeyError]. *)
Definition weights_getitem (k : string) : Exc Z :=
  match weights !! k with
  | Some v => Ret v
  | None => Raise
  end.

(** [sum(d.values())]. *)
Definition sum_values (d : gmap string Z) : Z :=
  map_fold (fun _ v acc => v + acc) 0 d.

(** The two accumulators [breakdown] and [total]. *)
Record State : Type := mkState { breakdown : list Signal; total : Z }.

(** [breakdown.append((name, val, explanation)); total += val]. *)
Definition add_signal (name : string) (val : Z) (d : Detail) (st : State) : State :=
  {| breakdown := breakdown st ++ [(name, val, d)]; total := total st + val |}.

(** Truth value of a list. *)
Definition nonempty {A} (l : list A) : bool :=
  match l with
  | [] => false
  | _ :: _ => true
  end.

(** The sender domain of lines 90-98: the text after the last [@] of the first
    address-like match in the From header, lower-cased. *)
Definition sender_domain_of (from_hdr : text) : Exc text :=
  try_except
    (match addr_search (or_empty (Some from_hdr)) with
     | Some m => Ret (lower (last_item (split_on "@" m)))
     | None => Ret []
     end)
    (Ret []).

(** The three suffix tests of line 106 for one link domain [ld]. *)
Definition related (sender_domain ld : text) : bool :=
  (endswith sender_domain ld || endswith ld sender_domain
   || endswith ld (last_item (split_on "." sender_domain)))%bool.

Section Detector.
Context `{L : Libs}.

(** The body of the loop of lines 40-46. *)
Definition url_step (acc : list text * Z) (u : text) : Exc (list text * Z) :=
  let '(suspicious_urls, bad_tld_count) := acc in
  dom ← domain_from_url u;
  let suspicious_urls :=
    if (truthy dom && ((count_char "-" dom >=? 2) || (len (split_on "." dom) >? 3)))%bool
    then suspicious_urls ++ [u] else suspicious_urls in
  let bad_tld_count :=
    if (truthy dom && existsb (fun p => len p >? 10) (split_on "." dom))%bool
    then bad_tld_count + 1 else bad_tld_count in
  Ret (suspicious_urls, bad_tld_count).

(** One element of the set comprehension of line 100: [domain_from_url] is
    called in the condition and again for the value. *)
Definition link_domain_step (s : gset text) (u : text) : Exc (gset text) :=
  c ← domain_from_url u;
  if truthy c then d ← domain_from_url u; Ret (s ∪ {[ d ]}) else Ret s.

Definition analyze (raw_email_text : text) : Exc (gmap string Value) :=
  let st := {| breakdown := []; total := 0 |} in
  let max_possible := sum_values weights in
  (* Extract sender *)
  '(from_hdr, reply_to) ← extract_sender_from_headers raw_email_text;
  (* Extract body (naive: entire text) *)
  let body := raw_email_text in
  (* URLs *)
  urls ← extract_urls body;
  (* Indicator: suspicious URL patterns *)
  '(suspicious_urls, bad_tld_count) ← for_each url_step urls ([], 0);
  st ← (if nonempty suspicious_urls then
          val ← weights_getitem "suspicious_url";
          Ret (add_signal "suspicious_url" val (DList suspicious_urls) st)
        else Ret st);
  (* Indicator: IP-based URLs *)
  ip_urls ← filter_exc is_ip_url urls;
  st ← (if nonempty ip_urls then
          val ← weights_getitem "ip_url";
          Ret (add_signal "ip_url" val (DList ip_urls) st)
        else Ret st);
  (* Indicator: http (not https) links *)
  let http_only := filter (fun u => startswith u (str "http://") = true) urls in
  st ← (if nonempty http_only then
          val ← weights_getitem "http_not_https";
          Ret (add_signal "http_not_https" val (DList http_only) st)
        else Ret st);
  (* Indicator: multiple links *)
  st ← (if len urls >=? 3 then
          val ← weights_getitem "multiple_links";
          Ret (add_signal "multiple_links" val (DCount (len urls)) st)
        else Ret st);
  (* Indicator: urgent language / phishing keywords *)
  let body_lower := lower body in
  let hits := filter (fun kw => contains body_lower kw = true) PHISHING_KEYWORDS in
  st ← (if nonempty hits then
          w ← weights_getitem "urgent_language";
          let val := Z.min w (len hits * 3) in
          Ret (add_signal "urgent_language" val (DList hits) st)
        else Ret st);
  (* Indicator: suspicious attachments *)
  atts ← find_attachments raw_email_text;
  st ← (if nonempty atts then
          val ← weights_getitem "suspicious_attachment";
          Ret (add_signal "suspicious_attachment" val (DList atts) st)
        else Ret st);
  (* Indicator: sender mismatch (sender domain vs link domains) *)
  sender_domain ← sender_domain_of from_hdr;
  link_domains ← for_each link_domain_step urls ∅;
  let link_domains : gset text := filter (fun d => truthy d = true) link_domains in
  let mismatch :=
    if (truthy sender_domain && nonempty (elements link_domains))%bool then
      if negb (existsb (related sender_domain) (elements link_domains))
      then true else false
    else false in
  st ← (if mismatch then
          val ← weights_getitem "sender_mismatch";
          Ret (add_signal "sender_mismatch" val
                 (DMismatch sender_domain (elements link_domains)) st)
        else Ret st);
  (* indicator: bad tld count *)
  st ← (if negb (bad_tld_count =? 0) then
          w ← weights_getitem "bad_tld";
          let val := Z.min w (bad_tld_count * 4) in
          Ret (add_signal "bad_tld" val (DCount bad_tld_count) st)
        else Ret st);
  (* Normalize to 0-100, round and clamp *)
  let score := normalize (total st) max_possible in
  Ret (list_to_map
         [("score", VInt score);
          ("max_score", VInt 100);
          ("raw_total", VInt (total st));
          ("max_possible_raw", VInt max_possible);
          ("breakdown", VBreakdown (breakdown st));
          ("sender", VStr from_hdr);
          ("reply_to", VStr reply_to);
          ("urls", VList urls)]%string).

End Detector.

(** ** The values [analyze] computes, as functions of the message

    The functions of [utils.py] catch every exception, so each of them has a
    value; these definitions name the locals of [analyze] after them. The
    lemmas [*_ret] and [analyze_eq] below tie them to the code. *)

Definition value_or {A} (d : A) (m : Exc A) : A :=
  match m with
  | Ret a => a
  | Raise => d
  end.

(** A signal, or none when its condition is false. *)
Definition signal_if (c : bool) (name : string) (val : Z) (d : Detail) : list Signal :=
  if c then [(name, val, d)] else [].

Definition sum_vals (bd : list Signal) : Z :=
  fold_right (fun s acc => signal_val s + acc) 0 bd.

Definition suspicious_domain (dom : text) : bool :=
  (truthy dom && ((count_char "-" dom >=? 2) || (len (split_on "." dom) >? 3)))%bool.

Definition long_label_domain (dom : text) : bool :=
  (truthy dom && existsb (fun p => len p >? 10) (split_on "." dom))%bool.

(** The state after the signals [sigs] were added to [st]. *)
Definition push (st : State) (sigs : list Signal) : State :=
  {| breakdown := breakdown st ++ sigs; total := total st + sum_vals sigs |}.

Section Views.
Context `{L : Libs}.

Definition domain_of (u : text) : text := value_or [] (domain_from_url u).
Definition ip_of (u : text) : bool := value_or false (is_ip_url u).
Definition headers_of (raw : text) : text * text :=
  value_or ([], []) (extract_sender_from_headers raw).
Definition attachments_of (raw : text) : list text :=
  value_or [] (find_attachments raw).
Definition sender_domain (raw : text) : text :=
  value_or [] (sender_domain_of (headers_of raw).1).

Definition suspicious_urls_of (raw : text) : list text :=
  List.filter (fun u => suspicious_domain (domain_of u)) (url_findall raw).
Definition bad_tld_count_of (raw : text) : Z :=
  len (List.filter (fun u => long_label_domain (domain_of u)) (url_findall raw)).
Definition ip_urls_of (raw : text) : list text :=
  List.filter ip_of (url_findall raw).
Definition http_only_of (raw : text) : list text :=
  List.filter (fun u => startswith u (str "http://")) (url_findall raw).
Definition hits_of (raw : text) : list text :=
  List.filter (fun kw => contains (lower raw) kw) PHISHING_KEYWORDS.
Definition link_domains_of (raw : text) : gset text :=
  filter (fun d => truthy d = true)
    (fold_left (fun (s : gset text) u =>
                  if truthy (domain_of u) then s ∪ {[ domain_of u ]} else s)
       (url_findall raw) ∅).
Definition mismatch_of (raw : text) : bool :=
  (truthy (sender_domain raw) && nonempty (elements (link_domains_of raw))
   && negb (existsb (related (sender_domain raw)) (elements (link_domains_of raw))))%bool.

Definition signals_of (raw : text) : list Signal :=
  signal_if (nonempty (suspicious_urls_of raw)) "suspicious_url" 30
    (DList (suspicious_urls_of raw)) ++
  signal_if (nonempty (ip_urls_of raw)) "ip_url" 20 (DList (ip_urls_of raw)) ++
  signal_if (nonempty (http_only_of raw)) "http_not_https" 10
    (DList (http_only_of raw)) ++
  signal_if (len (url_findall raw) >=? 3) "multiple_links" 8
    (DCount (len (url_findall raw))) ++
  signal_if (nonempty (hits_of raw)) "urgent_language"
    (Z.min 15 (len (hits_of raw) * 3)) (DList (hits_of raw)) ++
  signal_if (nonempty (attachments_of raw)) "suspicious_attachment" 25
    (DList (attachments_of raw)) ++
  signal_if (mismatch_of raw) "sender_mismatch" 25
    (DMismatch (sender_domain raw) (elements (link_domains_of raw))) ++
  signal_if (negb (bad_tld_count_of raw =? 0)) "bad_tld"
    (Z.min 12 (bad_tld_count_of raw * 4)) (DCount (bad_tld_count_of raw)).

Definition result_of (raw : text) : gmap string Value :=
  list_to_map
    [("score", VInt (normalize (sum_vals (signals_of raw)) 145));
     ("max_score", VInt 100);
     ("raw_total", VInt (sum_vals (signals_of raw)));
     ("max_possible_raw", VInt 145);
     ("breakdown", VBreakdown (signals_of raw));
     ("sender", VStr (headers_of raw).1);
     ("reply_to", VStr (headers_of raw).2);
     ("urls", VList (url_findall raw))]%string.

End Views.

(** ** A reference instance of the libraries

    Enough of [urllib.parse] (CPython 3.11), [tldextract] and [email] to run
    the engine on concrete messages. The theorems below hold for every
    instance of [Libs]; this one evaluates them on examples. Not modelled:
    the validation of a bracketed (IPv6) host, the full public-suffix list
    (a short one stands for it), folded headers and multipart messages. *)
Module Ref.

Definition drop_while {A} (p : A -> bool) : list A -> list A :=
  fix go l :=
    match l with
    | [] => []
    | a :: l' => if p a then go l' else l
    end.

Definition has_char (c : ascii) (s : text) : bool := existsb (ascii_eqb c) s.

(** [s.partition(c)]: the text before the first [c], and the text after it
    when [c] occurs. *)
Definition partition_at (c : ascii) (s : text) : text * option text :=
  let before := take_while (fun a => negb (ascii_eqb a c)) s in
  match drop (length before) s with
  | [] => (before, None)
  | _ :: after => (before, Some after)
  end.

(** [s.rpartition(c)[2]]: the text after the last [c], all of [s] without. *)
Definition after_last (c : ascii) (s : text) : text :=
  List.last (split_on c s) [].

Definition scheme_char (c : ascii) : bool :=
  (in_range 97 122 c || in_range 65 90 c || is_digit c
   || ascii_eqb c "+" || ascii_eqb c "-" || ascii_eqb c ".")%bool.

(** The start of [urlsplit]: strip leading C0 controls and spaces, remove tab,
    CR and LF, then split a leading scheme off. *)
Definition strip_scheme (url : text) : text :=
  let url := drop_while (fun c => N.leb (code c) 32) url in
  let url := List.filter (fun c => negb (N.eqb (code c) 9 || N.eqb (code c) 13 || N.eqb (code c) 10)) url in
  match partition_at ":" url with
  | (a :: before, Some after) =>
      if ((in_range 97 122 a || in_range 65 90 a) && forallb scheme_char (a :: before))%bool
      then after else url
  | _ => url
  end.

(** [_splitnetloc(url, 2)[0]] when [url] starts with two slashes. *)
Definition netloc_of (url : text) : text :=
  match url with
  | "/"%char :: "/"%char :: rest =>
      take_while (fun c => negb (ascii_eqb c "/" || ascii_eqb c "?" || ascii_eqb c "#")) rest
  | _ => []
  end.

(** [urlparse(u).hostname]. *)
Definition hostname (u : text) : Exc (option text) :=
  let netloc := netloc_of (strip_scheme u) in
  if xorb (has_char "[" netloc) (has_char "]" netloc) then Raise
  else
    let hostinfo := after_last "@" netloc in
    let host :=
      match partition_at "[" hostinfo with
      | (_, Some bracketed) => (partition_at "]" bracketed).1
      | (_, None) => (partition_at ":" hostinfo).1
      end in
    match host with
    | [] => Ret None
    | _ =>
        match partition_at "%" host with
        | (h, Some zone) => Ret (Some (lower h ++ "%"%char :: zone))
        | (h, None) => Ret (Some (lower h))
        end
    end.

(** The short public-suffix list of the reference instance. *)
Definition public_suffixes : list (list text) :=
  [[str "com"]; [str "net"]; [str "org"]; [str "uk"]; [str "co"; str "uk"]].

Definition join_dot (labels : list text) : text :=
  match labels with
  | [] => []
  | l :: ls => l ++ flat_map (fun x => "."%char :: x) ls
  end.

(** The registrable domain: the longest listed suffix of the host and the label
    before it; empty when no suffix is listed or no label is left. *)
Definition registrable (host : text) : text :=
  let labels := split_on "." host in
  let n := length labels in
  let fits k :=
    bool_decide (drop (n - k) labels ∈ public_suffixes) && Nat.ltb k n in
  if fits 2%nat then join_dot (drop (n - 3) labels)
  else if fits 1%nat then join_dot (drop (n - 2) labels)
  else [].

(** A parsed message: its header fields, in order. *)
Definition header_name_char (c : ascii) : bool :=
  (in_range 33 57 c || in_range 59 126 c)%bool.

Definition strip_left (s : text) : text :=
  drop_while (fun c => (ascii_eqb c " " || N.eqb (code c) 9)%bool) s.

Definition strip_cr (s : text) : text :=
  rev (drop_while (fun c => N.eqb (code c) 13) (rev s)).

Fixpoint header_lines (lines : list text) : list (text * text) :=
  match lines with
  | [] => []
  | line :: rest =>
      match partition_at ":" line with
      | (name, Some value) =>
          if (truthy name && forallb header_name_char name)%bool
          then (lower name, strip_left (strip_cr value)) :: header_lines rest
          else []
      | _ => []
      end
  end.

Definition parse (raw : text) : list (text * text) :=
  header_lines (split_on (ascii_of_N 10) raw).

Definition header (msg : list (text * text)) (name : text) : option text :=
  snd <$> List.find (fun h => bool_decide (h.1 = lower name)) msg.

Definition disposition (msg : list (text * text)) : option text :=
  (fun v => lower (strip_left (partition_at ";" v).1)) <$> header msg (str "Content-Disposition").

(** The [filename] parameter of the Content-Disposition header. *)
Definition filename (msg : list (text * text)) (failobj : text) : text :=
  match header msg (str "Content-Disposition") with
  | None => failobj
  | Some v =>
      let params := map strip_left (split_on ";" v) in
      match List.find (fun p => startswith (lower p) (str "filename=")) params with
      | Some p => List.filter (fun c => negb (N.eqb (code c) 34)) (drop 9 p)
      | None => failobj
      end
  end.

#[export] Instance libs : Libs := {|
  urlparse_hostname := hostname;
  registered_domain := fun host => Ret (registrable host);
  Message := list (text * text);
  message_from_string := fun raw => Ret (parse raw);
  msg_getitem := fun msg name => Ret (header msg name);
  msg_walk := fun msg => Ret [msg];
  get_content_disposition := fun msg => Ret (disposition msg);
  get_filename := fun msg failobj => Ret (filename msg failobj)
|}.

End Ref.

Definition nl : text := [ascii_of_N 10].

(** The message of the specification's worked example. *)
Definition paypal_example : text :=
  str "From: billing@paypal.com" ++ nl ++ nl ++
  str "http://192.168.1.5/login" ++ nl ++
  str "http://paypal-secure-verify.com/reset" ++ nl ++
  str "https://paypal.com/account" ++ nl ++
  str "Your account has been suspended, verify immediately.".

(** Three https links and nothing else. *)
Definition three_links : text :=
  str "https://a.com https://b.com https://c.com".

(** ** Notions the properties are stated with *)

(** [p] occurs in [s] as a contiguous substring. *)
Definition infix (p s : text) : Prop := exists pre post, s = pre ++ p ++ post.

(** One to three decimal digits. *)
Definition digit_group (g : text) : Prop :=
  (1 <= length g <= 3)%nat /\ Forall (fun c => is_digit c = true) g.

(** Four digit groups separated by dots. *)
Definition dotted_quad (q : text) : Prop :=
  exists a b c d,
    digit_group a /\ digit_group b /\ digit_group c /\ digit_group d /\
    q = a ++ "."%char :: b ++ "."%char :: c ++ "."%char :: d.

(** A dotted quad somewhere in [host], with no word character right before
    or right after it. *)
Definition quad_inside (host : text) : Prop :=
  exists pre q post,
    host = pre ++ q ++ post /\ dotted_quad q /\
    is_word_opt (last pre) = false /\ is_word_opt (head post) = false.

(** [n / d] rounded to the nearest integer, a tie to the even one (Python's
    [round]), for a positive [d]. *)
Definition round_nearest (n d : Z) : Z :=
  let q := n / d in
  let r := n mod d in
  if 2 * r <? d then q
  else if d <? 2 * r then q + 1
  else if Z.even q then q else q + 1.

Definition clamp (x lo hi : Z) : Z := Z.max lo (Z.min hi x).

(** What [findall] returns on a text, stated on the text: where no match
    starts the scan moves one character on, and a match [m] is reported and
    the scan resumes right after it. *)
Inductive Findall : text -> list text -> Prop :=
  | Findall_end : Findall [] []
  | Findall_skip c t ms :
      url_match_at (c :: t) = None -> Findall t ms -> Findall (c :: t) ms
  | Findall_hit m rest ms :
      url_match_at (m ++ rest) = Some m -> Findall rest ms ->
      Findall (m ++ rest) (m :: ms).

(** The matches, in order and without overlap, cut the text. *)
Inductive Cuts : list text -> text -> Prop :=
  | Cuts_nil gap : Cuts [] gap
  | Cuts_cons gap m ms rest : Cuts ms rest -> Cuts (m :: ms) (gap ++ m ++ rest).

(** The names of the signals of a breakdown. *)
Definition names (bd : list Signal) : list string := map signal_name bd.

(** A signal named [n] is in the breakdown. *)
Definition triggered (n : string) (bd : list Signal) : Prop := In n (names bd).

(** The weight applied to the signal named [n], when it is in the breakdown. *)
Definition applied (n : string) (bd : list Signal) : option Z :=
  signal_val <$> List.find (fun s => bool_decide (signal_name s = n)) bd.

(** The keys of the dict [analyze] returns. *)
Definition result_keys : list string :=
  ["score"; "max_score"; "raw_total"; "max_possible_raw"; "breakdown";
   "sender"; "reply_to"; "urls"]%string.

(** The links of the worked example. *)
Definition ip_link : text := str "http://192.168.1.5/login".
Definition hyphen_link : text := str "http://paypal-secure-verify.com/reset".
Definition paypal_link : text := str "https://paypal.com/account".

(** The signals the specification lists for the worked example. *)
Definition expected_signals : list string :=
  ["ip_url"; "http_not_https"; "multiple_links"; "suspicious_url";
   "urgent_language"]%string.

(** [ld] is a link domain of the message: the non-empty domain of one of its
    URLs. *)
Definition link_domain `{L : Libs} (raw ld : text) : Prop :=
  ld <> [] /\ exists u, In u (url_findall raw) /\ domain_from_url u = Ret ld.

(** A keyword and a link in the Subject header only. *)
Definition header_only_example : text :=
  str "Subject: urgent, see http://example.com/a" ++ nl ++ nl ++ str "hello".

(** The same keyword and link in the body only. *)
Definition body_only_example : text :=
  str "Subject: hi" ++ nl ++ nl ++ str "urgent, see http://example.com/a hello".

(** A link whose host starts with a dotted quad and goes on. *)
Definition quad_prefix_link : text := str "http://1.2.3.4.evil.com".
Definition quad_prefix_host : text := str "1.2.3.4.evil.com".

(** ** More notions for the properties *)

(** The rules in the order [analyze] appends their signals. *)
Definition RULE_ORDER : list string :=
  ["suspicious_url"; "ip_url"; "http_not_https"; "multiple_links";
   "urgent_language"; "suspicious_attachment"; "sender_mismatch"; "bad_tld"]%string.

(** The test of [find_attachments] on a filename: its lower-cased form ends
    with one of [SUSPICIOUS_EXT]. *)
Definition dangerous (fn : text) : bool :=
  existsb (fun ext => endswith (lower fn) ext) SUSPICIOUS_EXT.

(** The three literal prefixes of [url_regex]. *)
Definition URL_PREFIXES : list text :=
  [str "https://"; str "http://"; str "www."].

(** ** app.py: what the page derives from the result *)

(** The risk label and the badge style of lines 136-145. *)
Definition risk_badge (score : Z) : string * string :=
  if score <? 30 then
    ("Low risk (likely legitimate)",
     "background-color:#16a34a33;color:#bbf7d0;border:1px solid #22c55e55;")%string
  else if score <? 60 then
    ("Medium risk — review carefully",
     "background-color:#facc1533;color:#fef3c7;border:1px solid #facc1555;")%string
  else
    ("High risk — likely phishing",
     "background-color:#ef444433;color:#fee2e2;border:1px solid #ef444455;")%string.

(** The call-out of the overview tab, lines 180-197: [st.error],
    [st.warning] or [st.success] (the advice text is not modelled). *)
Inductive Callout : Type :=
  | st_error
  | st_warning
  | st_success.

Definition overview_callout (score : Z) : Callout :=
  if score >=? 60 then st_error
  else if score >=? 30 then st_warning
  else st_success.

(** [s.replace(old, new)] for a non-empty [old]: the occurrences of [old]
    are replaced from the left, without overlap ([skip] counts the
    characters of an occurrence still to pass). *)
Fixpoint replace_from (skip : nat) (old new s : text) : text :=
  match s with
  | [] => []
  | c :: s' =>
      match skip with
      | S k => replace_from k old new s'
      | O =>
          if startswith s old
          then new ++ replace_from (length old - 1) old new s'
          else c :: replace_from 0 old new s'
      end
  end.

(** [s.replace(old, new)]; an empty [old] matches before every character
    and at the end. *)
Definition replace (s old new : text) : text :=
  match old with
  | [] => new ++ flat_map (fun c => c :: new) s
  | _ :: _ => replace_from 0 old new s
  end.

(** [result.get(key, [])] for a key that holds a list of strings. *)
Definition get_list (result : gmap string Value) (key : string) : list text :=
  match result !! key with
  | Some (VList l) => l
  | _ => []
  end.

(** The loop of lines 227-229 over the URLs. *)
Definition highlight_urls (raw_input : text) (urls : list text) : text :=
  fold_left
    (fun highlighted u =>
       if truthy u then replace highlighted u (str "**" ++ u ++ str "**")
       else highlighted)
    urls raw_input.

(** The loop of lines 232-234 over the keywords. *)
Definition highlight_keywords (highlighted : text) (kws : list text) : text :=
  fold_left
    (fun highlighted kw =>
       if truthy kw then replace highlighted kw (str "__" ++ kw ++ str "__")
       else highlighted)
    kws highlighted.

(** The text the raw tab passes to [st.markdown], lines 224-239. *)
Definition highlighted_markdown (raw_input : text) (result : gmap string Value) : text :=
  let urls := get_list result "urls" in
  let highlighted := highlight_urls raw_input urls in
  let highlighted := highlight_keywords highlighted (get_list result "keyword_hits") in
  replace highlighted (str "  ") (str "&nbsp;&nbsp;").

(** Messages the witnesses use. *)
Definition plain_example : text :=
  str "Dear user, your password will expire. Please confirm.".

Definition ip_link_example : text := str "see http://10.0.0.1/x now".

Definition attachment_example : text :=
  str "Content-Disposition: attachment; filename=invoice.pdf.EXE" ++ nl ++ nl ++ str "body".

(** What a match of the URL pattern at the start of [l] looks like: one of
    the three prefixes, then a non-empty run of URL characters that stops
    only at the end of the text or at a space or quote. *)
Definition url_shape (m rest : text) : Prop :=
  exists p run,
    In p URL_PREFIXES /\ m = p ++ run /\ run <> [] /\
    List.Forall (fun c => url_char c = true) run /\
    match rest with
    | [] => True
    | c :: _ => url_char c = false
    end.

(** What the [email] library says of one part: its content disposition and
    its filename. *)
Definition PartView : Type := option text * text.

(** The part is an attachment with a dangerous filename. *)
Definition reported (v : PartView) : bool :=
  (bool_decide (v.1 = Some (str "attachment")) && dangerous v.2)%bool.

(** A sender at bank.com and a link to evil.com. *)
Definition same_tld_example : text :=
  str "From: a@bank.com" ++ nl ++ nl ++ str "http://evil.com/x".

(** ** Notions for the sender domain and for the position of a link *)

(** A non-empty run of address characters. *)
Definition addr_run (r : text) : Prop :=
  r <> [] /\ List.Forall (fun c => addr_char c = true) r.

(** An address-like pattern stands in [h] right after [pre]: a run [a], an
    [@] and a run [b], followed by [post]. *)
Definition address_at (h pre a b post : text) : Prop :=
  h = pre ++ a ++ "@"%char :: b ++ post /\ addr_run a /\ addr_run b.

(** The run [b] of a match is not continued by [post]. *)
Definition run_ends (post : text) : Prop :=
  match post with
  | [] => True
  | c :: _ => addr_char c = false
  end.

(** A sender at bank.com and a link to evil.org. *)
Definition mismatch_example : text :=
  str "From: a@bank.com" ++ nl ++ nl ++ str "http://evil.org/x".

(** A link that is also an address-like text, and the same message with it
    in the From line or in the body. *)
Definition moved_link : text := str "www.x@evil.org , ".

Definition url_in_from : text :=
  str "From: " ++ moved_link ++ str "a@corp.com" ++ nl ++ nl ++ str "hello".

Definition url_in_body : text :=
  str "From: " ++ str "a@corp.com" ++ nl ++ nl ++ moved_link ++ str "hello".

(** The six rules decided on the URLs and the keywords of the text alone:
    all but suspicious_attachment and sender_mismatch. *)
Definition text_rule (s : Signal) : bool :=
  negb (String.eqb (signal_name s) "suspicious_attachment"
        || String.eqb (signal_name s) "sender_mismatch").

(** * Properties *)

(** ** The embedding on examples *)

Example normalize_8 : normalize 8 145 = 5.
Proof. vm_compute. reflexivity. Qed.

Example normalize_145 : normalize 145 145 = 100.
Proof. vm_compute. reflexivity. Qed.

Example split_on_ex :
  split_on "." (str "a.b..c") = [str "a"; str "b"; str ""; str "c"].
Proof. reflexivity. Qed.

Example url_findall_ex :
  url_findall (str "see http://a.b/c, 'www.x.y' and https:// or https://q")
  = [str "http://a.b/c,"; str "www.x.y"; str "https://q"].
Proof. vm_compute. reflexivity. Qed.

Example ip_search_ex :
  map IP_REGEX_search [str "1.2.3.4"; str "1.2.3.4.evil.com"; str "1234.2.3.4"; str "1.2.3.4567"; str "1.2.3.4.5"; str "a1.2.3.4"; str "x-10.0.0.1"]
  = [true; true; false; false; true; false; true].
Proof. vm_compute. reflexivity. Qed.

Example addr_search_ex :
  addr_search (str "Bob <bob.x@Mail.Example.COM>") = Some (str "bob.x@Mail.Example.COM").
Proof. vm_compute. reflexivity. Qed.

Example hostname_ex :
  map Ref.hostname [str "http://user@HOST:80/x"; str "www.a.com"; str "httpx.com/a:b"]
  = [Ret (Some (str "host")); Ret None; Ret None].
Proof. vm_compute. reflexivity. Qed.

Example registrable_ex :
  map Ref.registrable [str "192.168.1.5"; str "mail.update-login.co.uk"; str "localhost"]
  = [str ""; str "update-login.co.uk"; str ""].
Proof. vm_compute. reflexivity. Qed.

(** The same inputs through CPython's [re] give these results. *)
Example url_findall_ex2 :
  map url_findall
    [(str "httpss://x www. www.a https://'x http://http://a hhttp://b" ++ [ascii_of_N 160] ++ str "c wwww.q.r HTTP://A.B http://a" ++ [ascii_of_N 31] ++ str "b");
     str "x"]
  = [[str "www.a"; str "http://http://a"; str "http://b"; str "www.q.r"; str "http://a"];
     []].
Proof. vm_compute. reflexivity. Qed.

Example addr_search_ex2 :
  map addr_search
    [str "a@@b.c x@y"; str "@a.b c@"; str "<-.@.->"; ([ascii_of_N 233] ++ str "t" ++ [ascii_of_N 233] ++ str "@caf" ++ [ascii_of_N 201] ++ str ".fr!"); str "a b"]
  = [Some (str "x@y");
     None;
     Some (str "-.@.-");
     Some ([ascii_of_N 233] ++ str "t" ++ [ascii_of_N 233] ++ str "@caf" ++ [ascii_of_N 201] ++ str ".fr");
     None].
Proof. vm_compute. reflexivity. Qed.

Example sender_domain_ex :
  map sender_domain_of
    [str "a@@b.c x@y"; str "@a.b c@"; str "<-.@.->"; ([ascii_of_N 233] ++ str "t" ++ [ascii_of_N 233] ++ str "@caf" ++ [ascii_of_N 201] ++ str ".fr!"); str "a b"]
  = [Ret (str "y");
     Ret [];
     Ret (str ".-");
     Ret (str "caf" ++ [ascii_of_N 233] ++ str ".fr");
     Ret []].
Proof. vm_compute. reflexivity. Qed.

Example ip_search_ex2 :
  map IP_REGEX_search
    [str "1.2.3";
     str "01.002.3.4";
     str "1.2.3.4_";
     str "_1.2.3.4";
     str "1.2.3.4-5";
     str "1.2.3.4.5.6.7.8a";
     ([ascii_of_N 233] ++ str "1.2.3.4");
     str "1..2.3.4";
     str "12345.1.2.3.4";
     str "1.2.3.4.";
     str "a 1.2.3.4 b";
     ([ascii_of_N 215] ++ str "1.2.3.4" ++ [ascii_of_N 247])]
  = [false; true; false; false; true; true; false; false; true; true; true; true].
Proof. vm_compute. reflexivity. Qed.

Example lower_ex :
  lower (str "A" ++ [ascii_of_N 192] ++ [ascii_of_N 215] ++ [ascii_of_N 222] ++ [ascii_of_N 223] ++ str "z")
  = (str "a" ++ [ascii_of_N 224] ++ [ascii_of_N 215] ++ [ascii_of_N 254] ++ [ascii_of_N 223] ++ str "z").
Proof. vm_compute. reflexivity. Qed.

(** ** Text *)

Lemma ascii_eqb_eq (a b : ascii) : ascii_eqb a b = true <-> a = b.
Proof. apply Ascii.eqb_eq. Qed.

Lemma startswith_prefix (s p : text) : startswith s p = true <-> p `prefix_of` s.
Proof.
  revert s; induction p as [|b p IH]; intros s; simpl.
  - split; [intros _; apply prefix_nil | by destruct s].
  - destruct s as [|a s]; simpl.
    + split; [discriminate | intros [k Hk]; discriminate].
    + rewrite andb_true_iff, ascii_eqb_eq, IH. split.
      * intros [-> Hp]. by apply prefix_cons.
      * intros [k Hk]. injection Hk as -> ->. split; [done | by exists k].
Qed.

Lemma endswith_suffix (s p : text) : endswith s p = true <-> p `suffix_of` s.
Proof.
  unfold endswith. rewrite startswith_prefix. split.
  - intros [k Hk]. exists (rev k).
    rewrite <- (rev_involutive s), Hk, rev_app_distr, rev_involutive. done.
  - intros [k ->]. exists (rev k). apply rev_app_distr.
Qed.

Lemma contains_infix (s p : text) : contains s p = true <-> infix p s.
Proof.
  induction s as [|a s IH]; cbn [contains].
  - rewrite orb_false_r, startswith_prefix. split.
    + intros [k Hk]. by exists [], k.
    + intros (pre & post & H). destruct pre; [by exists post | discriminate].
  - rewrite orb_true_iff, startswith_prefix, IH. split.
    + intros [[k Hk] | (pre & post & ->)].
      * by exists [], k.
      * by exists (a :: pre), post.
    + intros (pre & post & H). destruct pre as [|c pre].
      * left. by exists post.
      * right. injection H as -> ->. by exists pre, post.
Qed.


Lemma lower_app (a b : text) : lower (a ++ b) = lower a ++ lower b.
Proof. apply map_app. Qed.


Lemma take_while_drop {A} (p : A -> bool) (l : list A) :
  take_while p l ++ drop (length (take_while p l)) l = l.
Proof.
  induction l as [|a l IH]; simpl; [done|].
  destruct (p a); simpl; [by rewrite IH | done].
Qed.

Lemma nonempty_true {A} (l : list A) : nonempty l = true <-> l <> [].
Proof. destruct l; simpl; split; congruence. Qed.

Lemma truthy_true (s : text) : truthy s = true <-> s <> [].
Proof. destruct s; simpl; split; congruence. Qed.

(** ** Exceptions *)

Lemma try_except_ret {A} (body : Exc A) (a : A) :
  exists x, try_except body (Ret a) = Ret x.
Proof. destruct body; simpl; eauto. Qed.

Lemma bind_ret {A B} (a : A) (k : A -> Exc B) : (Ret a ≫= k) = k a.
Proof. reflexivity. Qed.

Lemma for_each_pure {A S} (body : S -> A -> Exc S) (f : S -> A -> S) (l : list A) (s : S) :
  (forall s x, body s x = Ret (f s x)) ->
  for_each body l s = Ret (fold_left f l s).
Proof.
  intros H. revert s; induction l as [|x l IH]; intros s; simpl; [done|].
  rewrite H. apply IH.
Qed.

Lemma filter_exc_pure {A} (p : A -> Exc bool) (q : A -> bool) (l : list A) :
  (forall x, p x = Ret (q x)) ->
  filter_exc p l = Ret (List.filter q l).
Proof.
  intros H. unfold filter_exc.
  assert (G : forall acc,
    for_each (fun acc x => b ← p x; Ret (if b : bool then acc ++ [x] else acc)) l acc
    = Ret (acc ++ List.filter q l)).
  { induction l as [|x l IH]; intros acc; simpl.
    - by rewrite app_nil_r.
    - rewrite H; simpl. rewrite IH. destruct (q x); simpl; [|done].
      by rewrite <- app_assoc. }
  apply G.
Qed.

(** ** The functions of [utils.py] never raise *)

Lemma value_or_ret {A} (m : Exc A) (d : A) :
  (exists x, m = Ret x) -> m = Ret (value_or d m).
Proof. intros [x ->]. reflexivity. Qed.

Lemma push_push (st : State) (a b : list Signal) :
  push (push st a) b = push st (a ++ b).
Proof.
  unfold push; simpl. f_equal.
  - by rewrite <- app_assoc.
  - unfold sum_vals. rewrite fold_right_app.
    induction a as [|x a IH]; simpl; lia.
Qed.

Lemma step_flat (c : bool) (k : string) (w : Z) (d : Detail) (st : State) :
  weights_getitem k = Ret w ->
  (if c then val ← weights_getitem k; Ret (add_signal k val d st) else Ret st)
  = Ret (push st (signal_if c k w d)).
Proof.
  intros ->. destruct st as [bd t]. unfold push, add_signal, sum_vals.
  destruct c; simpl; rewrite ?app_nil_r; do 2 f_equal; unfold signal_val; simpl; lia.
Qed.

Lemma step_graded (c : bool) (k : string) (w n : Z) (d : Detail) (st : State) :
  weights_getitem k = Ret w ->
  (if c then w ← weights_getitem k;
             let val := Z.min w n in Ret (add_signal k val d st)
   else Ret st)
  = Ret (push st (signal_if c k (Z.min w n) d)).
Proof.
  intros ->. destruct st as [bd t]. unfold push, add_signal, sum_vals.
  destruct c; simpl; rewrite ?app_nil_r; do 2 f_equal; unfold signal_val; simpl; lia.
Qed.

Lemma weights_sum : sum_values weights = 145.
Proof. vm_compute. reflexivity. Qed.

Section Returns.
Context `{L : Libs}.

Lemma domain_from_url_ret (u : text) : domain_from_url u = Ret (domain_of u).
Proof. apply value_or_ret, try_except_ret. Qed.

Lemma is_ip_url_ret (u : text) : is_ip_url u = Ret (ip_of u).
Proof. apply value_or_ret, try_except_ret. Qed.

Lemma extract_sender_from_headers_ret (raw : text) :
  extract_sender_from_headers raw = Ret (headers_of raw).
Proof. apply value_or_ret, try_except_ret. Qed.

Lemma find_attachments_ret (raw : text) :
  find_attachments raw = Ret (attachments_of raw).
Proof. apply value_or_ret, try_except_ret. Qed.

Lemma sender_domain_of_ret (raw : text) :
  sender_domain_of (headers_of raw).1 = Ret (sender_domain raw).
Proof. apply value_or_ret, try_except_ret. Qed.

Lemma url_loop (urls : list text) (sus : list text) (n : Z) :
  for_each url_step urls (sus, n)
  = Ret (sus ++ List.filter (fun u => suspicious_domain (domain_of u)) urls,
         n + len (List.filter (fun u => long_label_domain (domain_of u)) urls)).
Proof.
  revert sus n; induction urls as [|u urls IH]; intros sus n; simpl.
  - rewrite app_nil_r. unfold len; simpl. do 2 f_equal. lia.
  - rewrite domain_from_url_ret; simpl. rewrite IH.
    fold (suspicious_domain (domain_of u)) (long_label_domain (domain_of u)).
    destruct (suspicious_domain (domain_of u)), (long_label_domain (domain_of u));
      simpl; rewrite <- ?app_assoc; simpl; unfold len; simpl; do 2 f_equal; lia.
Qed.

Lemma link_domain_loop (urls : list text) (s : gset text) :
  for_each link_domain_step urls s
  = Ret (fold_left (fun (s : gset text) u =>
                      if truthy (domain_of u) then s ∪ {[ domain_of u ]} else s)
           urls s).
Proof.
  apply for_each_pure. intros s' u. unfold link_domain_step.
  rewrite domain_from_url_ret; simpl. by destruct (truthy (domain_of u)).
Qed.

Lemma list_filter_eq {A} (p : A -> bool) (l : list A) :
  filter (fun x => p x = true) l = List.filter p l.
Proof.
  induction l as [|x l IH]; [done|]. rewrite filter_cons. simpl.
  destruct (p x) eqn:E; case_decide; congruence.
Qed.

Lemma if_if_bool (a b : bool) :
  (if a then if negb b then true else false else false) = (a && negb b)%bool.
Proof. by destruct a, b. Qed.

(** [analyze] returns, and returns [result_of]. *)
Lemma analyze_eq (raw : text) : analyze raw = Ret (result_of raw).
Proof.
  unfold analyze.
  rewrite extract_sender_from_headers_ret.
  pose proof (sender_domain_of_ret raw) as Hs.
  destruct (headers_of raw) as [from_hdr reply_to] eqn:Hh. simpl in Hs.
  rewrite bind_ret. unfold extract_urls. rewrite bind_ret.
  rewrite url_loop, bind_ret. cbn [app Z.add].
  rewrite (step_flat _ _ 30) by reflexivity. rewrite bind_ret.
  rewrite (filter_exc_pure _ ip_of) by apply is_ip_url_ret. rewrite bind_ret.
  rewrite (step_flat _ _ 20) by reflexivity. rewrite bind_ret.
  rewrite (step_flat _ _ 10) by reflexivity. rewrite bind_ret.
  rewrite (step_flat _ _ 8) by reflexivity. rewrite bind_ret.
  rewrite (step_graded _ _ 15) by reflexivity. rewrite bind_ret.
  rewrite find_attachments_ret, bind_ret.
  rewrite (step_flat _ _ 25) by reflexivity. rewrite bind_ret.
  rewrite Hs, bind_ret.
  rewrite link_domain_loop, bind_ret.
  rewrite if_if_bool.
  rewrite (step_flat _ _ 25) by reflexivity. rewrite bind_ret.
  rewrite (step_graded _ _ 12) by reflexivity. rewrite bind_ret.
  rewrite !push_push, !list_filter_eq, weights_sum.
  unfold push, result_of, signals_of, mismatch_of, link_domains_of,
    suspicious_urls_of, ip_urls_of, http_only_of, hits_of, bad_tld_count_of.
  rewrite Hh. cbn [breakdown total app Z.add fst snd].
  rewrite <- ?app_assoc. reflexivity.
Qed.

End Returns.

(** ** The score *)

Lemma normalize_range (t m : Z) : 0 <= normalize t m <= 100.
Proof. unfold normalize. lia. Qed.

(** On every total the rules can produce, the float computation of the score
    is the integer quotient: checked on each of the 146 totals. *)
Lemma normalize_floor (t : Z) : 0 <= t <= 145 -> normalize t 145 = t * 100 / 145.
Proof.
  intros Ht.
  assert (H : forallb (fun n => normalize (Z.of_nat n) 145 =? Z.of_nat n * 100 / 145)
                (seq 0 146) = true) by (vm_compute; reflexivity).
  rewrite forallb_forall in H.
  specialize (H (Z.to_nat t)). rewrite Z2Nat.id in H by lia.
  apply Z.eqb_eq, H, in_seq. lia.
Qed.

Lemma normalize_degenerate (t : Z) : normalize t 0 = 0.
Proof. reflexivity. Qed.

(** ** The signals *)

Lemma sum_vals_app (a b : list Signal) : sum_vals (a ++ b) = sum_vals a + sum_vals b.
Proof. induction a as [|x a IH]; simpl; [done | rewrite IH; lia]. Qed.

Lemma sum_vals_signal_if (c : bool) (n : string) (v : Z) (d : Detail) :
  0 <= v -> 0 <= sum_vals (signal_if c n v d) <= v.
Proof. destruct c; simpl; unfold signal_val; simpl; lia. Qed.

Lemma len_nonneg {A} (l : list A) : 0 <= len l.
Proof. unfold len. lia. Qed.

Section Signals.
Context `{L : Libs}.

Lemma bad_tld_count_nonneg (raw : text) : 0 <= bad_tld_count_of raw.
Proof. apply len_nonneg. Qed.

Lemma raw_total_range (raw : text) : 0 <= sum_vals (signals_of raw) <= 145.
Proof.
  unfold signals_of. rewrite !sum_vals_app.
  pose proof (len_nonneg (hits_of raw)).
  pose proof (bad_tld_count_nonneg raw).
  repeat match goal with
  | |- context [sum_vals (signal_if ?c ?n ?v ?d)] =>
      let H := fresh in
      assert (H : 0 <= v) by lia;
      apply (sum_vals_signal_if c n v d) in H;
      generalize dependent (sum_vals (signal_if c n v d)); intros
  end.
  lia.
Qed.

(** Every signal carries at most the weight configured for its rule. *)
Lemma signals_within_weights (raw : text) :
  Forall (fun s => exists w, weights !! signal_name s = Some w /\ signal_val s <= w)
    (signals_of raw).
Proof.
  unfold signals_of.
  repeat (apply Forall_app; split);
    match goal with
    | |- Forall _ (signal_if ?c _ _ _) =>
        destruct c; constructor; try constructor;
        eexists; (split; [reflexivity | unfold signal_val; simpl; lia])
    end.
Qed.

Lemma result_dom (raw : text) : dom (result_of raw) = list_to_set result_keys.
Proof. unfold result_of. rewrite dom_list_to_map_L. reflexivity. Qed.

Lemma result_lookups (raw : text) :
  result_of raw !! "score"%string
    = Some (VInt (normalize (sum_vals (signals_of raw)) 145)) /\
  result_of raw !! "raw_total"%string = Some (VInt (sum_vals (signals_of raw))) /\
  result_of raw !! "max_possible_raw"%string = Some (VInt 145) /\
  result_of raw !! "breakdown"%string = Some (VBreakdown (signals_of raw)) /\
  result_of raw !! "sender"%string = Some (VStr (headers_of raw).1) /\
  result_of raw !! "reply_to"%string = Some (VStr (headers_of raw).2) /\
  result_of raw !! "urls"%string = Some (VList (url_findall raw)) /\
  result_of raw !! "keyword_hits"%string = None.
Proof.
  unfold result_of.
  generalize (signals_of raw) (headers_of raw) (url_findall raw). intros.
  repeat split; reflexivity.
Qed.

End Signals.

(** ** Properties of [analyze] *)

(** C6. For every input, and whatever the libraries do: the score is between
    0 and 100, [raw_total] is at most [max_possible_raw], [max_possible_raw]
    is the constant 145, the sum 30+20+10+8+15+25+25+12 of the weights, and
    every emitted signal carries at most the weight configured for its rule. *)
Theorem C6_invariants `{L : Libs} (raw : text) :
  exists d score raw_total bd,
    analyze raw = Ret d /\
    d !! "score"%string = Some (VInt score) /\
    d !! "raw_total"%string = Some (VInt raw_total) /\
    d !! "max_possible_raw"%string = Some (VInt 145) /\
    d !! "breakdown"%string = Some (VBreakdown bd) /\
    0 <= score <= 100 /\
    raw_total <= 145 /\
    sum_values weights = 145 /\
    145 = 30 + 20 + 10 + 8 + 15 + 25 + 25 + 12 /\
    raw_total = sum_vals bd /\
    Forall (fun s => exists w, weights !! signal_name s = Some w /\ signal_val s <= w) bd.
Proof.
  destruct (result_lookups raw) as (Hs & Ht & Hm & Hb & _).
  exists (result_of raw), (normalize (sum_vals (signals_of raw)) 145),
    (sum_vals (signals_of raw)), (signals_of raw).
  repeat split; try assumption; try reflexivity.
  - apply analyze_eq.
  - apply normalize_range.
  - apply normalize_range.
  - apply raw_total_range.
  - apply signals_within_weights.
Qed.

(** C2. The dict [analyze] returns has no [keyword_hits] entry, for any
    input: its keys are the eight of the [return] statement. The list of
    matched keywords is computed all the same: when a keyword occurs it is
    the detail of the urgent_language signal of the breakdown. *)
Theorem C2_no_keyword_hits `{L : Libs} (raw : text) :
  exists d bd hits,
    analyze raw = Ret d /\
    d !! "keyword_hits"%string = None /\
    dom d = list_to_set result_keys /\
    d !! "breakdown"%string = Some (VBreakdown bd) /\
    (forall kw, In kw hits <-> In kw PHISHING_KEYWORDS /\ infix kw (lower raw)) /\
    (hits = [] \/
     In ("urgent_language"%string, Z.min 15 (len hits * 3), DList hits) bd).
Proof.
  exists (result_of raw), (signals_of raw), (hits_of raw).
  split; [apply analyze_eq|].
  destruct (result_lookups raw) as (_ & _ & _ & Hb & _ & _ & _ & Hk).
  split; [exact Hk|]. split; [apply result_dom|]. split; [exact Hb|].
  split.
  - intros kw. unfold hits_of. rewrite filter_In, contains_infix. reflexivity.
  - destruct (hits_of raw) as [|h hs] eqn:E; [by left | right].
    unfold signals_of. rewrite E. simpl nonempty.
    rewrite !in_app_iff. do 4 right. left. by left.
Qed.

(** C1. The score is the quotient [raw_total * 100 / 145] truncated, not
    rounded to the nearest integer: for every input it is the integer below
    the ratio, and on the message [three_links], where only [multiple_links]
    fires, [raw_total] is 8 and the score is 5, while the ratio 800/145
    (5.52) rounded to the nearest integer and clamped is 6. In the
    degenerate case of a zero maximum the score is 0. *)
Theorem C1_score_truncates :
  (forall (L : Libs) (raw : text),
     exists d t,
       analyze raw = Ret d /\
       d !! "raw_total"%string = Some (VInt t) /\
       d !! "max_possible_raw"%string = Some (VInt 145) /\
       d !! "score"%string = Some (VInt (clamp (t * 100 / 145) 0 100))) /\
  (forall t, normalize t 0 = 0) /\
  (exists d,
     analyze (L := Ref.libs) three_links = Ret d /\
     d !! "raw_total"%string = Some (VInt 8) /\
     d !! "max_possible_raw"%string = Some (VInt 145) /\
     d !! "score"%string = Some (VInt 5) /\
     clamp (round_nearest (8 * 100) 145) 0 100 = 6).
Proof.
  split; [|split].
  - intros L raw. exists (result_of raw), (sum_vals (signals_of raw)).
    destruct (result_lookups raw) as (Hs & Ht & Hm & _).
    pose proof (raw_total_range raw) as Hr.
    split; [apply analyze_eq|]. split; [exact Ht|]. split; [exact Hm|].
    rewrite Hs, (normalize_floor _ Hr). do 2 f_equal.
    unfold clamp.
    assert (0 <= sum_vals (signals_of raw) * 100 / 145 <= 100); [|lia].
    split; [apply Z.div_pos; lia|].
    apply Z.div_le_upper_bound; lia.
  - apply normalize_degenerate.
  - exists (result_of (L := Ref.libs) three_links).
    destruct (result_lookups (L := Ref.libs) three_links) as (Hs & Ht & Hm & _).
    assert (E : sum_vals (signals_of (L := Ref.libs) three_links) = 8)
      by (vm_compute; reflexivity).
    rewrite E in Hs, Ht.
    replace (normalize 8 145) with 5 in Hs by (vm_compute; reflexivity).
    split; [apply analyze_eq|]. split; [exact Ht|]. split; [exact Hm|].
    split; [exact Hs | reflexivity].
Qed.

(** C3, as stated, fails twice on the worked example: [bad_tld] fires too,
    so the triggered signals are not exactly the five listed; and the score
    is not high: the raw total is 81 of 145, which gives a score below 60,
    the medium band of the page, whether the ratio is truncated (55) or
    rounded (56). *)
Lemma C3_counterexample :
  exists d bd score,
    analyze (L := Ref.libs) paypal_example = Ret d /\
    d !! "breakdown"%string = Some (VBreakdown bd) /\
    d !! "score"%string = Some (VInt score) /\
    d !! "raw_total"%string = Some (VInt 81) /\
    (triggered "bad_tld" bd /\ ~ In "bad_tld"%string expected_signals) /\
    (score < 60 /\
     clamp (round_nearest (81 * 100) 145) 0 100 < 60 /\
     (risk_badge score).1 = "Medium risk — review carefully"%string /\
     (risk_badge (clamp (round_nearest (81 * 100) 145) 0 100)).1
       = "Medium risk — review carefully"%string).
Proof.
  exists (result_of (L := Ref.libs) paypal_example),
    (signals_of (L := Ref.libs) paypal_example),
    (normalize (sum_vals (signals_of (L := Ref.libs) paypal_example)) 145).
  destruct (result_lookups (L := Ref.libs) paypal_example) as (Hs & Ht & _ & Hb & _).
  assert (E : sum_vals (signals_of (L := Ref.libs) paypal_example) = 81)
    by (vm_compute; reflexivity).
  split; [apply analyze_eq|]. split; [exact Hb|]. split; [exact Hs|].
  split; [by rewrite Ht, E|]. split.
  - split; [unfold triggered; vm_compute; tauto|].
    unfold expected_signals. simpl. intuition discriminate.
  - rewrite E. replace (normalize 81 145) with 55 by (vm_compute; reflexivity).
    repeat split; vm_compute; reflexivity.
Qed.

(** C3, amended. Whenever the libraries read the worked example as the
    specification describes it (the From header is billing@paypal.com, there
    is no Reply-To and no attachment, and the three links have the domains
    192.168.1.5, paypal-secure-verify.com and paypal.com, the first one an IP
    host), the signals are, in order, suspicious_url, ip_url, http_not_https,
    multiple_links, urgent_language and bad_tld; sender_mismatch does not
    fire; [raw_total] is 81 of 145, so the score, the ratio 55.86 brought to
    an integer, is 55 or 56: strictly below 100, and below the 60 from which
    the page says high risk. *)
Theorem C3_worked_example `{L : Libs} :
  extract_sender_from_headers paypal_example = Ret (str "billing@paypal.com", []) ->
  find_attachments paypal_example = Ret [] ->
  domain_from_url ip_link = Ret (str "192.168.1.5") ->
  domain_from_url hyphen_link = Ret (str "paypal-secure-verify.com") ->
  domain_from_url paypal_link = Ret (str "paypal.com") ->
  is_ip_url ip_link = Ret true ->
  is_ip_url hyphen_link = Ret false ->
  is_ip_url paypal_link = Ret false ->
  exists d bd score,
    analyze paypal_example = Ret d /\
    d !! "breakdown"%string = Some (VBreakdown bd) /\
    map (fun s => (signal_name s, signal_val s)) bd
      = [("suspicious_url", 30); ("ip_url", 20); ("http_not_https", 10);
         ("multiple_links", 8); ("urgent_language", 9); ("bad_tld", 4)]%string /\
    ~ triggered "sender_mismatch" bd /\
    d !! "raw_total"%string = Some (VInt 81) /\
    d !! "max_possible_raw"%string = Some (VInt 145) /\
    d !! "score"%string = Some (VInt score) /\
    55 <= score <= 56 /\
    score < 100 /\
    (risk_badge score).1 = "Medium risk — review carefully"%string.
Proof.
  intros Hh Ha Hd1 Hd2 Hd3 Hi1 Hi2 Hi3.
  assert (Hsig : map (fun s => (signal_name s, signal_val s)) (signals_of paypal_example)
      = [("suspicious_url", 30); ("ip_url", 20); ("http_not_https", 10);
         ("multiple_links", 8); ("urgent_language", 9); ("bad_tld", 4)]%string).
  { unfold signals_of, mismatch_of, suspicious_urls_of, ip_urls_of, http_only_of,
      bad_tld_count_of, link_domains_of, sender_domain, attachments_of, headers_of.
    rewrite Hh, Ha.
    replace (url_findall paypal_example) with [ip_link; hyphen_link; paypal_link]
      by (vm_compute; reflexivity).
    cbn [List.filter fold_left].
    unfold ip_of, domain_of. rewrite Hd1, Hd2, Hd3, Hi1, Hi2, Hi3.
    vm_compute. reflexivity. }
  exists (result_of paypal_example), (signals_of paypal_example), 55.
  destruct (result_lookups paypal_example) as (Hs & Ht & Hm & Hb & _).
  assert (Ht' : sum_vals (signals_of paypal_example) = 81).
  { transitivity (fold_right Z.add 0 (map snd (map (fun s => (signal_name s, signal_val s)) (signals_of paypal_example)))).
    - rewrite map_map. unfold sum_vals. generalize (signals_of paypal_example).
      induction l as [|x l IH]; simpl; [done | by rewrite IH].
    - rewrite Hsig. reflexivity. }
  rewrite Ht' in Hs, Ht.
  replace (normalize 81 145) with 55 in Hs by (vm_compute; reflexivity).
  split; [apply analyze_eq|]. split; [exact Hb|]. split; [exact Hsig|].
  split; [|split; [exact Ht|split; [exact Hm|split; [exact Hs|]]]].
  - unfold triggered, names. intros Hin.
    assert (Hn : map signal_name (signals_of paypal_example)
               = map fst (map (fun s => (signal_name s, signal_val s)) (signals_of paypal_example))).
    { rewrite map_map. reflexivity. }
    rewrite Hn, Hsig in Hin. simpl in Hin. intuition discriminate.
  - split; [lia|]. split; [lia | reflexivity].
Qed.

(** The reference instance of the libraries reads the worked example that
    way. *)
Lemma C3_worked_example_witness :
  exists d bd score,
    analyze (L := Ref.libs) paypal_example = Ret d /\
    d !! "breakdown"%string = Some (VBreakdown bd) /\
    map (fun s => (signal_name s, signal_val s)) bd
      = [("suspicious_url", 30); ("ip_url", 20); ("http_not_https", 10);
         ("multiple_links", 8); ("urgent_language", 9); ("bad_tld", 4)]%string /\
    ~ triggered "sender_mismatch" bd /\
    d !! "raw_total"%string = Some (VInt 81) /\
    d !! "max_possible_raw"%string = Some (VInt 145) /\
    d !! "score"%string = Some (VInt score) /\
    55 <= score <= 56 /\
    score < 100 /\
    (risk_badge score).1 = "Medium risk — review carefully"%string.
Proof.
  apply (C3_worked_example (L := Ref.libs)); vm_compute; reflexivity.
Defined.

(** ** Which signals fire *)

Lemma in_names_signal_if (n : string) (c : bool) (k : string) (v : Z) (d : Detail) :
  In n (names (signal_if c k v d)) <-> n = k /\ c = true.
Proof.
  destruct c; simpl; [|intuition discriminate].
  unfold signal_name; simpl. intuition.
Qed.

Lemma find_signal_if_ne (n : string) (c : bool) (k : string) (v : Z) (d : Detail)
    (rest : list Signal) :
  k <> n ->
  List.find (fun s => bool_decide (signal_name s = n)) (signal_if c k v d ++ rest)
  = List.find (fun s => bool_decide (signal_name s = n)) rest.
Proof.
  intros Hne. destruct c; simpl; [|done].
  unfold signal_name at 1; simpl. by rewrite bool_decide_eq_false_2.
Qed.

Lemma find_signal_if_eq (c : bool) (k : string) (v : Z) (d : Detail)
    (rest : list Signal) :
  (forall s, In s rest -> signal_name s <> k) ->
  signal_val <$> List.find (fun s => bool_decide (signal_name s = k)) (signal_if c k v d ++ rest)
  = if c then Some v else None.
Proof.
  intros Hrest. destruct c; simpl.
  - unfold signal_name at 1; simpl. by rewrite bool_decide_eq_true_2.
  - destruct (List.find _ rest) as [s|] eqn:E; [|done].
    apply find_some in E as [Hin Hs]. apply bool_decide_eq_true in Hs.
    by destruct (Hrest s Hin).
Qed.

Lemma signal_if_name (s : Signal) (c : bool) (k : string) (v : Z) (d : Detail) :
  In s (signal_if c k v d) -> signal_name s = k.
Proof. destruct c; simpl; [intros [<-|[]]; reflexivity | intros []]. Qed.

Section Triggers.
Context `{L : Libs}.

Lemma triggered_iff (raw : text) (n : string) :
  triggered n (signals_of raw) <->
  (n = "suspicious_url"%string /\ nonempty (suspicious_urls_of raw) = true) \/
  (n = "ip_url"%string /\ nonempty (ip_urls_of raw) = true) \/
  (n = "http_not_https"%string /\ nonempty (http_only_of raw) = true) \/
  (n = "multiple_links"%string /\ (len (url_findall raw) >=? 3) = true) \/
  (n = "urgent_language"%string /\ nonempty (hits_of raw) = true) \/
  (n = "suspicious_attachment"%string /\ nonempty (attachments_of raw) = true) \/
  (n = "sender_mismatch"%string /\ mismatch_of raw = true) \/
  (n = "bad_tld"%string /\ negb (bad_tld_count_of raw =? 0) = true).
Proof.
  unfold triggered, signals_of, names. rewrite !map_app, !in_app_iff.
  repeat match goal with
  | |- context [In n (map signal_name (signal_if ?c ?k ?v ?d))] =>
      change (In n (map signal_name (signal_if c k v d)))
        with (In n (names (signal_if c k v d)));
      rewrite (in_names_signal_if n c k v d)
  end.
  reflexivity.
Qed.

Lemma applied_urgent (raw : text) :
  applied "urgent_language" (signals_of raw)
  = if nonempty (hits_of raw) then Some (Z.min 15 (len (hits_of raw) * 3)) else None.
Proof.
  unfold applied, signals_of.
  rewrite !find_signal_if_ne by discriminate.
  apply find_signal_if_eq. intros s Hs.
  rewrite !in_app_iff in Hs.
  destruct Hs as [Hs|[Hs|Hs]]; apply signal_if_name in Hs; rewrite Hs; discriminate.
Qed.

Lemma applied_mismatch (raw : text) :
  applied "sender_mismatch" (signals_of raw)
  = if mismatch_of raw then Some 25 else None.
Proof.
  unfold applied, signals_of.
  rewrite !find_signal_if_ne by discriminate.
  apply find_signal_if_eq. intros s Hs.
  apply signal_if_name in Hs; rewrite Hs; discriminate.
Qed.

Lemma in_hits (raw kw : text) :
  In kw (hits_of raw) <-> In kw PHISHING_KEYWORDS /\ infix kw (lower raw).
Proof. unfold hits_of. rewrite filter_In, contains_infix. reflexivity. Qed.

Lemma hits_NoDup (raw : text) : NoDup (hits_of raw).
Proof.
  unfold hits_of. apply NoDup_ListNoDup, List.NoDup_filter, NoDup_ListNoDup.
  apply (bool_decide_unpack _). vm_compute. reflexivity.
Qed.

Lemma nonempty_exists {A} (l : list A) : nonempty l = true <-> exists x, In x l.
Proof.
  destruct l as [|x l]; simpl; split; try discriminate; eauto.
  intros [y []].
Qed.

End Triggers.

Section Keywords.
Context `{L : Libs}.

Lemma urgent_signal_in (raw : text) :
  nonempty (hits_of raw) = true ->
  In ("urgent_language"%string, Z.min 15 (len (hits_of raw) * 3), DList (hits_of raw))
     (signals_of raw).
Proof.
  intros H. unfold signals_of. rewrite H.
  rewrite !in_app_iff. do 4 right. left. by left.
Qed.

Lemma urgent_triggered_iff (raw : text) :
  triggered "urgent_language" (signals_of raw) <->
  exists kw, In kw PHISHING_KEYWORDS /\ infix kw (lower raw).
Proof.
  rewrite triggered_iff. split.
  - intros H.
    assert (Hn : nonempty (hits_of raw) = true) by intuition discriminate.
    apply nonempty_exists in Hn as [kw Hkw]. exists kw.
    apply in_hits in Hkw. exact Hkw.
  - intros [kw Hkw]. do 4 right. left. split; [reflexivity|].
    apply nonempty_exists. exists kw. apply in_hits. exact Hkw.
Qed.

End Keywords.

Lemma keywords_lower : Forall (fun kw => lower kw = kw) PHISHING_KEYWORDS.
Proof. repeat constructor. Qed.

(** C9. For every input, the urgent_language signal is in the breakdown
    exactly when some phrase of the keyword list is a substring of the
    lower-cased message, and the weight applied is the smaller of 15 and
    three times the number of phrases of the list that occur; a phrase and a
    longer phrase that contains it both count (on the text Verify your
    account the two hits give the weight 6). *)
Theorem C9_urgent_language `{L : Libs} (raw : text) :
  exists d bd hits,
    analyze raw = Ret d /\
    d !! "breakdown"%string = Some (VBreakdown bd) /\
    (forall kw, In kw hits <-> In kw PHISHING_KEYWORDS /\ infix kw (lower raw)) /\
    NoDup hits /\
    (triggered "urgent_language" bd <->
     exists kw, In kw PHISHING_KEYWORDS /\ infix kw (lower raw)) /\
    applied "urgent_language" bd
      = (if nonempty hits then Some (Z.min 15 (3 * len hits)) else None) /\
    exists d' bd',
      analyze (str "Verify your account") = Ret d' /\
      d' !! "breakdown"%string = Some (VBreakdown bd') /\
      In ("urgent_language"%string, 6, DList [str "verify"; str "verify your account"]) bd'.
Proof.
  exists (result_of raw), (signals_of raw), (hits_of raw).
  destruct (result_lookups raw) as (_ & _ & _ & Hb & _).
  split; [apply analyze_eq|]. split; [exact Hb|].
  split; [apply in_hits|]. split; [apply hits_NoDup|].
  split; [apply urgent_triggered_iff|].
  split; [rewrite applied_urgent, (Z.mul_comm 3); reflexivity|].
  exists (result_of (str "Verify your account")), (signals_of (str "Verify your account")).
  destruct (result_lookups (str "Verify your account")) as (_ & _ & _ & Hb' & _).
  split; [apply analyze_eq|]. split; [exact Hb'|].
  assert (E : hits_of (str "Verify your account") = [str "verify"; str "verify your account"])
    by (vm_compute; reflexivity).
  pose proof (urgent_signal_in (str "Verify your account")) as Hin.
  rewrite E in Hin. apply Hin. reflexivity.
Qed.

(** ** The URL rules read the list extracted from the whole text *)

Lemma nonempty_filter {A} (p : A -> bool) (l : list A) :
  nonempty (List.filter p l) = true <-> exists x, In x l /\ p x = true.
Proof.
  rewrite nonempty_exists. split; intros [x Hx]; exists x; by apply filter_In.
Qed.

Section UrlRules.
Context `{L : Libs}.

Lemma ip_of_true (u : text) : ip_of u = true <-> is_ip_url u = Ret true.
Proof. rewrite is_ip_url_ret. split; [by intros -> | by intros [= ->]]. Qed.

Lemma domain_of_eq (u dom : text) : domain_of u = dom <-> domain_from_url u = Ret dom.
Proof. rewrite domain_from_url_ret. split; [by intros -> | by intros [= ->]]. Qed.

Lemma suspicious_url_iff (raw : text) :
  triggered "suspicious_url" (signals_of raw) <->
  exists u dom, In u (url_findall raw) /\ domain_from_url u = Ret dom /\
                suspicious_domain dom = true.
Proof.
  rewrite triggered_iff. unfold suspicious_urls_of. rewrite nonempty_filter. split.
  - intros H.
    assert (Hx : exists x, In x (url_findall raw) /\ suspicious_domain (domain_of x) = true)
      by intuition discriminate.
    destruct Hx as (u & Hu & Hs). exists u, (domain_of u).
    split; [done|]. split; [by apply domain_of_eq | done].
  - intros (u & dom & Hu & Hd & Hs). left. split; [done|].
    exists u. apply domain_of_eq in Hd. by rewrite Hd.
Qed.

Lemma ip_url_iff (raw : text) :
  triggered "ip_url" (signals_of raw) <->
  exists u, In u (url_findall raw) /\ is_ip_url u = Ret true.
Proof.
  rewrite triggered_iff. unfold ip_urls_of. rewrite nonempty_filter. split.
  - intros H.
    assert (Hx : exists x, In x (url_findall raw) /\ ip_of x = true)
      by intuition discriminate.
    destruct Hx as (u & Hu & Hi). exists u. by rewrite <- ip_of_true.
  - intros (u & Hu & Hi). right; left. split; [done|].
    exists u. by rewrite ip_of_true.
Qed.

Lemma http_not_https_iff (raw : text) :
  triggered "http_not_https" (signals_of raw) <->
  exists u, In u (url_findall raw) /\ str "http://" `prefix_of` u.
Proof.
  rewrite triggered_iff. unfold http_only_of. rewrite nonempty_filter. split.
  - intros H.
    assert (Hx : exists x, In x (url_findall raw) /\ startswith x (str "http://") = true)
      by intuition discriminate.
    destruct Hx as (u & Hu & Hp). exists u. by rewrite <- startswith_prefix.
  - intros (u & Hu & Hp). do 2 right; left. split; [done|].
    exists u. by rewrite startswith_prefix.
Qed.

Lemma multiple_links_iff (raw : text) :
  triggered "multiple_links" (signals_of raw) <-> 3 <= len (url_findall raw).
Proof.
  rewrite triggered_iff. split.
  - intros H.
    assert (Hx : (len (url_findall raw) >=? 3) = true) by intuition discriminate.
    lia.
  - intros H. do 3 right; left. split; [done | lia].
Qed.

Lemma bad_tld_iff (raw : text) :
  triggered "bad_tld" (signals_of raw) <->
  exists u dom, In u (url_findall raw) /\ domain_from_url u = Ret dom /\
                long_label_domain dom = true.
Proof.
  rewrite triggered_iff. unfold bad_tld_count_of. split.
  - intros H.
    assert (Hx : negb (len (List.filter (fun u => long_label_domain (domain_of u))
                              (url_findall raw)) =? 0) = true)
      by intuition discriminate.
    destruct (List.filter _ _) as [|u l] eqn:E; [discriminate|].
    assert (Hu : In u (u :: l)) by by left.
    rewrite <- E in Hu. apply filter_In in Hu as [Hu Hl].
    exists u, (domain_of u). split; [done|]. split; [by apply domain_of_eq | done].
  - intros (u & dom & Hu & Hd & Hl). do 7 right. split; [done|].
    apply domain_of_eq in Hd. rewrite <- Hd in Hl.
    assert (Hin : In u (List.filter (fun u => long_label_domain (domain_of u)) (url_findall raw)))
      by by apply filter_In.
    destruct (List.filter _ _); [destruct Hin | reflexivity].
Qed.

End UrlRules.


(** ** The sender domain *)

Lemma take_while_Forall {A} (p : A -> bool) (l : list A) :
  List.Forall (fun a => p a = true) (take_while p l).
Proof.
  induction l as [|a l IH]; simpl; [constructor|].
  destruct (p a) eqn:E; constructor; assumption.
Qed.

Lemma split_on_nonempty (c : ascii) (s : text) : split_on c s <> [].
Proof.
  induction s as [|a s IH]; simpl; [discriminate|].
  destruct (ascii_eqb a c); [discriminate|].
  destruct (split_on c s); discriminate.
Qed.

Lemma split_on_none (c : ascii) (s : text) :
  ~ In c s -> split_on c s = [s].
Proof.
  induction s as [|a s IH]; simpl; [done|]. intros Hn.
  destruct (ascii_eqb a c) eqn:E.
  - apply ascii_eqb_eq in E. tauto.
  - rewrite IH by tauto. reflexivity.
Qed.

Lemma last_cons_nonempty {A} (x : A) (l : list A) (d : A) :
  l <> [] -> List.last (x :: l) d = List.last l d.
Proof. destruct l; [congruence | reflexivity]. Qed.

Lemma split_on_single (c : ascii) (s p : text) :
  split_on c s = [p] -> s = p /\ ~ In c s.
Proof.
  revert p; induction s as [|a s IH]; simpl; intros p.
  - intros [= <-]. tauto.
  - destruct (ascii_eqb a c) eqn:E.
    + intros [= _ H]. by apply split_on_nonempty in H.
    + destruct (split_on c s) as [|q qs] eqn:Es; [intros [= <-]|intros [= <- ->]].
      * by apply split_on_nonempty in Es.
      * destruct (IH q eq_refl) as [-> Hn]. split; [reflexivity|].
        intros [->|H]; [|tauto]. unfold ascii_eqb in E. by rewrite Ascii.eqb_refl in E.
Qed.

Lemma last_split_app (c : ascii) (x y : text) :
  last_item (split_on c (x ++ c :: y)) = last_item (split_on c y).
Proof.
  unfold last_item. induction x as [|a x IH]; simpl.
  - unfold ascii_eqb. rewrite Ascii.eqb_refl.
    apply last_cons_nonempty, split_on_nonempty.
  - destruct (ascii_eqb a c).
    + rewrite last_cons_nonempty by apply split_on_nonempty. apply IH.
    + destruct (split_on c (x ++ c :: y)) as [|p ps] eqn:E.
      * by apply split_on_nonempty in E.
      * destruct ps as [|q ps]; [|exact IH].
        apply split_on_single in E as [_ Hn]. destruct Hn. apply in_elt.
Qed.

(** The label after the last separator holds no separator, and the text ends
    with it. *)
Lemma last_split_spec (c : ascii) (s : text) :
  ~ In c (last_item (split_on c s)) /\
  (s = last_item (split_on c s) \/
   exists pre, s = pre ++ c :: last_item (split_on c s)).
Proof.
  unfold last_item. induction s as [|a s IH]; simpl.
  - split; [tauto | by left].
  - destruct (ascii_eqb a c) eqn:E.
    + apply ascii_eqb_eq in E as ->.
      rewrite last_cons_nonempty by apply split_on_nonempty.
      destruct IH as [Hn [Hs|[pre Hs]]]; (split; [exact Hn|right]).
      * exists []. simpl. by rewrite <- Hs.
      * exists (c :: pre). simpl. by rewrite <- Hs.
    + destruct (split_on c s) as [|p ps] eqn:Es.
      * by apply split_on_nonempty in Es.
      * destruct ps as [|q ps].
        -- apply split_on_single in Es as [-> Hn]. simpl. split; [|by left].
           intros [->|H]; [|tauto].
           unfold ascii_eqb in E. by rewrite Ascii.eqb_refl in E.
        -- change (List.last ((a :: p) :: q :: ps) []) with (List.last (p :: q :: ps) []).
           destruct IH as [Hn [Hs|[pre Hs]]]; (split; [exact Hn|]).
           ++ exfalso. rewrite <- Hs in Hn. apply (split_on_none c) in Hn.
              rewrite Es in Hn. discriminate.
           ++ right. exists (a :: pre). simpl. f_equal. exact Hs.
Qed.

Lemma addr_char_at : addr_char "@" = false.
Proof. reflexivity. Qed.

Lemma addr_match_at_spec (l m : text) :
  addr_match_at l = Some m ->
  exists a b rest,
    l = m ++ rest /\ m = a ++ "@"%char :: b /\ a <> [] /\ b <> [] /\
    List.Forall (fun c => addr_char c = true) a /\
    List.Forall (fun c => addr_char c = true) b.
Proof.
  unfold addr_match_at. intros H.
  pose proof (take_while_drop addr_char l) as Hl.
  pose proof (take_while_Forall addr_char l) as Ha.
  destruct (take_while addr_char l) as [|a0 a] eqn:Ea; [discriminate|].
  destruct (drop (length (a0 :: a)) l) as [|c rest] eqn:Ed; [discriminate|].
  destruct (ascii_eqb c "@") eqn:Ec; [|discriminate].
  apply ascii_eqb_eq in Ec as ->.
  pose proof (take_while_drop addr_char rest) as Hr.
  pose proof (take_while_Forall addr_char rest) as Hb.
  destruct (take_while addr_char rest) as [|b0 b] eqn:Eb; [discriminate|].
  injection H as <-.
  exists (a0 :: a), (b0 :: b), (drop (length (b0 :: b)) rest).
  split; [|by repeat split].
  etransitivity; [symmetry; exact Hl|]. rewrite <- Hr at 1.
  simpl. f_equal. rewrite <- app_assoc. reflexivity.
Qed.

Lemma addr_search_spec (l m : text) :
  addr_search l = Some m ->
  exists a b,
    m = a ++ "@"%char :: b /\ a <> [] /\ b <> [] /\
    List.Forall (fun c => addr_char c = true) a /\
    List.Forall (fun c => addr_char c = true) b /\
    infix m l /\
    lower (last_item (split_on "@" m)) = lower b.
Proof.
  induction l as [|c l IH]; cbn [addr_search].
  - destruct (addr_match_at []) eqn:E; [|discriminate]. discriminate.
  - destruct (addr_match_at (c :: l)) as [m'|] eqn:E.
    + intros [= <-]. apply addr_match_at_spec in E
        as (a & b & rest & Hl & Hm & Ha & Hb & Fa & Fb).
      exists a, b. repeat (split; [assumption|]). split.
      * exists [], rest. exact Hl.
      * rewrite Hm, last_split_app, split_on_none; [reflexivity|].
        intros Hin. rewrite List.Forall_forall in Fb. apply Fb in Hin.
        by rewrite addr_char_at in Hin.
    + intros H. destruct (IH H) as (a & b & Hm & Ha & Hb & Fa & Fb & (pre & post & Hi) & Hlast).
      exists a, b. repeat (split; [assumption|]). split; [|assumption].
      exists (c :: pre), post. by rewrite Hi.
Qed.

(** ** The sender mismatch rule *)

Lemma related_iff (sd ld : text) :
  related sd ld = true <->
  sd `suffix_of` ld \/ ld `suffix_of` sd \/ last_item (split_on "." sd) `suffix_of` ld.
Proof.
  unfold related. rewrite !orb_true_iff, !endswith_suffix. tauto.
Qed.

Section Mismatch.
Context `{L : Libs}.

Lemma link_domain_fold (urls : list text) (s : gset text) (ld : text) :
  ld ∈ fold_left (fun (s : gset text) u =>
                    if truthy (domain_of u) then s ∪ {[ domain_of u ]} else s) urls s
  <-> ld ∈ s \/ exists u, In u urls /\ domain_of u = ld /\ ld <> [].
Proof.
  revert s; induction urls as [|u urls IH]; intros s; simpl.
  - split; [by left | intros [H|(u & [] & _)]; exact H].
  - rewrite IH. split.
    + intros [H|(v & Hv & Hd & Hn)].
      * destruct (truthy (domain_of u)) eqn:E; [|by left].
        apply elem_of_union in H as [H|H]; [by left|].
        apply elem_of_singleton in H. right. exists u.
        split; [by left|]. split; [done|]. subst ld. by apply truthy_true.
      * right. exists v. split; [by right | done].
    + intros [H|(v & [->|Hv] & Hd & Hn)].
      * left. destruct (truthy (domain_of u)); [|done]. apply elem_of_union. by left.
      * left. apply truthy_true in Hn. rewrite <- Hd in Hn. rewrite Hn.
        apply elem_of_union. right. by apply elem_of_singleton.
      * right. by exists v.
Qed.

Lemma in_link_domains (raw ld : text) :
  In ld (elements (link_domains_of raw)) <-> link_domain raw ld.
Proof.
  rewrite <- list_elem_of_In, elem_of_elements.
  unfold link_domains_of, link_domain. rewrite elem_of_filter, link_domain_fold.
  rewrite truthy_true. split.
  - intros [Hn [H|(u & Hu & Hd & _)]]; [by apply not_elem_of_empty in H|].
    split; [done|]. exists u. split; [done|]. by apply domain_of_eq.
  - intros [Hn (u & Hu & Hd)]. split; [done|]. right.
    exists u. split; [done|]. split; [by apply domain_of_eq | done].
Qed.

Lemma mismatch_iff (raw : text) :
  mismatch_of raw = true <->
  sender_domain raw <> [] /\ (exists ld, link_domain raw ld) /\
  forall ld, link_domain raw ld ->
    ~ (sender_domain raw `suffix_of` ld \/ ld `suffix_of` sender_domain raw \/
       last_item (split_on "." (sender_domain raw)) `suffix_of` ld).
Proof.
  unfold mismatch_of.
  rewrite !andb_true_iff, truthy_true, nonempty_exists, negb_true_iff.
  rewrite <- not_true_iff_false, existsb_exists.
  split.
  - intros [[Hs [ld Hld]] Hno]. split; [done|]. split.
    + exists ld. by apply in_link_domains.
    + intros ld' Hl' Hrel. apply Hno. exists ld'.
      split; [by apply in_link_domains | by apply related_iff].
  - intros (Hs & [ld Hld] & Hno). split; [split; [done|]|].
    + exists ld. by apply in_link_domains.
    + intros (ld' & Hl' & Hrel). apply (Hno ld').
      * by apply in_link_domains.
      * by apply related_iff.
Qed.

End Mismatch.

(** ** The address pattern finds the leftmost address *)

Lemma take_while_maximal {A} (p : A -> bool) (l : list A) :
  match drop (length (take_while p l)) l with
  | [] => True
  | c :: _ => p c = false
  end.
Proof.
  induction l as [|a l IH]; simpl; [done|].
  destruct (p a) eqn:E; simpl; [exact IH | exact E].
Qed.

Lemma take_while_app_stop {A} (p : A -> bool) (a : list A) (c : A) (rest : list A) :
  List.Forall (fun x => p x = true) a -> p c = false ->
  take_while p (a ++ c :: rest) = a.
Proof.
  intros Fa Hc. induction Fa as [|x a Hx _ IH]; simpl.
  - by rewrite Hc.
  - by rewrite Hx, IH.
Qed.

Lemma take_while_app_all {A} (p : A -> bool) (a rest : list A) :
  List.Forall (fun x => p x = true) a ->
  take_while p (a ++ rest) = a ++ take_while p rest.
Proof.
  intros Fa. induction Fa as [|x a Hx _ IH]; simpl; [done|]. by rewrite Hx, IH.
Qed.

Lemma addr_match_at_complete (a b post : text) :
  addr_run a -> addr_run b ->
  addr_match_at (a ++ "@"%char :: b ++ post)
  = Some (a ++ "@"%char :: b ++ take_while addr_char post).
Proof.
  intros [Ha Fa] [Hb Fb]. unfold addr_match_at.
  rewrite (take_while_app_stop _ _ _ _ Fa addr_char_at).
  destruct a as [|a0 a]; [done|].
  rewrite drop_app_length. unfold ascii_eqb. rewrite Ascii.eqb_refl.
  rewrite (take_while_app_all _ _ _ Fb).
  destruct b as [|b0 b]; [done|]. reflexivity.
Qed.

Lemma addr_match_at_sound (l m : text) :
  addr_match_at l = Some m ->
  exists a b post, address_at l [] a b post /\ m = a ++ "@"%char :: b /\ run_ends post.
Proof.
  unfold addr_match_at. intros H.
  pose proof (take_while_drop addr_char l) as Hl.
  pose proof (take_while_Forall addr_char l) as Ha.
  destruct (take_while addr_char l) as [|a0 a] eqn:Ea; [discriminate|].
  destruct (drop (length (a0 :: a)) l) as [|c rest] eqn:Ed; [discriminate|].
  destruct (ascii_eqb c "@") eqn:Ec; [|discriminate].
  apply ascii_eqb_eq in Ec as ->.
  pose proof (take_while_drop addr_char rest) as Hr.
  pose proof (take_while_Forall addr_char rest) as Hb.
  pose proof (take_while_maximal addr_char rest) as Hmax.
  destruct (take_while addr_char rest) as [|b0 b] eqn:Eb; [discriminate|].
  injection H as <-.
  exists (a0 :: a), (b0 :: b), (drop (length (b0 :: b)) rest).
  split; [|split; [reflexivity | exact Hmax]].
  split; [|split; by split].
  simpl app. rewrite <- Hl. simpl. f_equal. f_equal. f_equal.
  rewrite <- Hr at 1. reflexivity.
Qed.

Lemma addr_match_at_None (l : text) :
  addr_match_at l = None <-> forall a b post, ~ address_at l [] a b post.
Proof.
  split.
  - intros Hn a b post (Hl & Ha & Hb). simpl in Hl.
    rewrite Hl, (addr_match_at_complete _ _ _ Ha Hb) in Hn. discriminate.
  - intros Hno. destruct (addr_match_at l) as [m|] eqn:E; [|done].
    destruct (addr_match_at_sound _ _ E) as (a & b & post & Hat & _).
    by destruct (Hno a b post).
Qed.

Lemma address_at_cons (c : ascii) (l pre a b post : text) :
  address_at (c :: l) (c :: pre) a b post <-> address_at l pre a b post.
Proof.
  unfold address_at. simpl. split; intros (Hl & Ha & Hb); (split; [|by split]).
  - by injection Hl.
  - by rewrite Hl.
Qed.

Lemma address_at_head (c : ascii) (l pre a b post : text) :
  address_at (c :: l) pre a b post ->
  pre = [] \/ exists pre', pre = c :: pre' /\ address_at l pre' a b post.
Proof.
  destruct pre as [|x pre]; [by left|]. intros Hat. right.
  assert (x = c) as -> by (destruct Hat as (Hl & _); simpl in Hl; congruence).
  exists pre. split; [reflexivity|]. exact (proj1 (address_at_cons _ _ _ _ _ _) Hat).
Qed.

(** [addr_search] finds nothing exactly when no address-like pattern stands
    anywhere in the text. *)
Lemma addr_search_None (l : text) :
  addr_search l = None <-> forall pre a b post, ~ address_at l pre a b post.
Proof.
  induction l as [|c l IH]; cbn [addr_search].
  - split; [|reflexivity]. intros _ pre a b post (Hl & _).
    destruct pre, a; discriminate.
  - destruct (addr_match_at (c :: l)) as [m|] eqn:E.
    + split; [discriminate|]. intros Hno.
      destruct (addr_match_at_sound _ _ E) as (a & b & post & Hat & _).
      by destruct (Hno [] a b post).
    + rewrite IH. split.
      * intros Hno pre a b post Hat.
        destruct (address_at_head _ _ _ _ _ _ Hat) as [->|(pre' & -> & Hat')].
        -- by apply (proj1 (addr_match_at_None _) E a b post).
        -- by apply (Hno pre' a b post).
      * intros Hno pre a b post Hat. apply (Hno (c :: pre) a b post).
        exact (proj2 (address_at_cons _ _ _ _ _ _) Hat).
Qed.

(** What [addr_search] finds is the leftmost address-like pattern, with its
    second run taken as far as it goes. *)
Lemma addr_search_Some (l m : text) :
  addr_search l = Some m ->
  exists pre a b post,
    address_at l pre a b post /\ m = a ++ "@"%char :: b /\ run_ends post /\
    forall pre' a' b' post',
      address_at l pre' a' b' post' -> (length pre <= length pre')%nat.
Proof.
  induction l as [|c l IH]; cbn [addr_search].
  - destruct (addr_match_at []) eqn:E; discriminate.
  - destruct (addr_match_at (c :: l)) as [m'|] eqn:E.
    + intros [= <-].
      destruct (addr_match_at_sound _ _ E) as (a & b & post & Hat & Hm & Hend).
      exists [], a, b, post. repeat (split; [assumption|]).
      intros. simpl. lia.
    + intros H. destruct (IH H) as (pre & a & b & post & Hat & Hm & Hend & Hleft).
      exists (c :: pre), a, b, post.
      split; [exact (proj2 (address_at_cons _ _ _ _ _ _) Hat)|].
      split; [exact Hm|]. split; [exact Hend|].
      intros pre' a' b' post' Hat'.
      destruct (address_at_head _ _ _ _ _ _ Hat') as [->|(p & -> & Hat'')].
      * by destruct (proj1 (addr_match_at_None _) E a' b' post').
      * simpl. apply le_n_S. by apply (Hleft p a' b' post').
Qed.

(** The two runs of the leftmost match are determined by where it starts. *)
Lemma address_at_unique (h pre a b post a' b' post' : text) :
  address_at h pre a b post -> run_ends post ->
  address_at h pre a' b' post' -> run_ends post' ->
  a = a' /\ b = b'.
Proof.
  intros (Hh & [_ Fa] & [_ Fb]) He (Hh' & [_ Fa'] & [_ Fb']) He'.
  rewrite Hh in Hh'. apply app_inv_head in Hh'.
  assert (Ea : a = a').
  { rewrite <- (take_while_app_stop addr_char a "@"%char (b ++ post) Fa addr_char_at).
    rewrite Hh'. apply (take_while_app_stop addr_char a' "@"%char _ Fa' addr_char_at). }
  subst a'. apply app_inv_head in Hh'. injection Hh' as Hb.
  split; [reflexivity|].
  assert (Tb : forall x y, List.Forall (fun c => addr_char c = true) x -> run_ends y ->
                           take_while addr_char (x ++ y) = x).
  { intros x y Fx Hy. rewrite (take_while_app_all _ _ _ Fx).
    destruct y as [|c y]; simpl; [by rewrite app_nil_r|].
    simpl in Hy. rewrite Hy. by rewrite app_nil_r. }
  rewrite <- (Tb b post Fb He), Hb. by apply Tb.
Qed.

(** C5. For every input the sender_mismatch signal fires exactly when the
    sender domain is non-empty, the message has a link domain, and no link
    domain is related to the sender domain by one of the three suffix tests;
    its weight is then the flat 25. The sender domain is the lower-cased
    text after the [@] of the leftmost address-like pattern of the From
    header (a run of address characters, an [@], a run of address characters
    taken as far as it goes): no such pattern starts earlier in the header.
    It is empty, so that the signal cannot fire, exactly when no such
    pattern stands anywhere in the header. The last label of the sender
    domain holds no dot and ends it. Examples: the header Bob
    <bob.x@Mail.Example.COM> gives mail.example.com, of two addresses the
    first one counts, and a sender at bank.com with a link to evil.org is a
    mismatch of weight 25. *)
Theorem C5_sender_mismatch `{L : Libs} (raw : text) :
  exists d bd from_hdr sd,
    analyze raw = Ret d /\
    d !! "breakdown"%string = Some (VBreakdown bd) /\
    d !! "sender"%string = Some (VStr from_hdr) /\
    sender_domain_of from_hdr = Ret sd /\
    match addr_search from_hdr with
    | Some m =>
        exists pre a b post,
          address_at from_hdr pre a b post /\
          m = a ++ "@"%char :: b /\
          run_ends post /\
          (forall pre' a' b' post',
             address_at from_hdr pre' a' b' post' -> (length pre <= length pre')%nat) /\
          infix m from_hdr /\ sd = lower b /\ sd <> []
    | None =>
        (forall pre a b post, ~ address_at from_hdr pre a b post) /\
        sd = [] /\ ~ triggered "sender_mismatch" bd
    end /\
    (triggered "sender_mismatch" bd <->
     sd <> [] /\ (exists ld, link_domain raw ld) /\
     forall ld, link_domain raw ld ->
       ~ (sd `suffix_of` ld \/ ld `suffix_of` sd \/
          last_item (split_on "." sd) `suffix_of` ld)) /\
    ((triggered "sender_mismatch" bd /\ applied "sender_mismatch" bd = Some 25) \/
     (~ triggered "sender_mismatch" bd /\ applied "sender_mismatch" bd = None)) /\
    ~ In "."%char (last_item (split_on "." sd)) /\
    last_item (split_on "." sd) `suffix_of` sd /\
    sender_domain_of (str "Bob <bob.x@Mail.Example.COM>") = Ret (str "mail.example.com") /\
    sender_domain_of (str "x@first.org, y@second.org") = Ret (str "first.org") /\
    sender_domain_of (str "no address here") = Ret [] /\
    exists d' bd',
      analyze (L := Ref.libs) mismatch_example = Ret d' /\
      d' !! "breakdown"%string = Some (VBreakdown bd') /\
      d' !! "sender"%string = Some (VStr (str "a@bank.com")) /\
      applied "sender_mismatch" bd' = Some 25.
Proof.
  exists (result_of raw), (signals_of raw), (headers_of raw).1, (sender_domain raw).
  destruct (result_lookups raw) as (_ & _ & _ & Hb & Hf & _).
  assert (Htrig : triggered "sender_mismatch" (signals_of raw) <-> mismatch_of raw = true).
  { rewrite triggered_iff. intuition discriminate. }
  split; [apply analyze_eq|]. split; [exact Hb|]. split; [exact Hf|].
  split; [apply sender_domain_of_ret|].
  split; [|split; [|split; [|split; [|split]]]].
  - pose proof (sender_domain_of_ret raw) as Hs. unfold sender_domain_of in Hs.
    simpl in Hs.
    destruct (addr_search (headers_of raw).1) as [m|] eqn:E.
    + injection Hs as Hs.
      destruct (addr_search_Some _ _ E) as (pre & a & b & post & Hat & Hm & Hend & Hleft).
      exists pre, a, b, post.
      split; [exact Hat|]. split; [exact Hm|]. split; [exact Hend|].
      split; [exact Hleft|].
      destruct Hat as (Hh & Ha & [Hbne Fb]).
      assert (Hsd : sender_domain raw = lower b).
      { rewrite <- Hs, Hm, last_split_app, split_on_none; [reflexivity|].
        intros Hin. rewrite List.Forall_forall in Fb. apply Fb in Hin.
        by rewrite addr_char_at in Hin. }
      split; [|split; [exact Hsd|]].
      * exists pre, post. rewrite Hh, Hm. by rewrite <- app_assoc.
      * rewrite Hsd. by destruct b.
    + injection Hs as Hs. split; [by apply addr_search_None|]. split; [done|].
      rewrite Htrig, mismatch_iff. intros [Hne _]. by rewrite <- Hs in Hne.
  - rewrite Htrig. apply mismatch_iff.
  - rewrite applied_mismatch, Htrig.
    destruct (mismatch_of raw); [left | right]; split; congruence.
  - apply last_split_spec.
  - destruct (last_split_spec "." (sender_domain raw)) as [_ [H|[pre H]]].
    + rewrite <- H. reflexivity.
    + exists (pre ++ ["."%char]). rewrite <- app_assoc. exact H.
  - split; [vm_compute; reflexivity|]. split; [vm_compute; reflexivity|].
    split; [vm_compute; reflexivity|].
    exists (result_of (L := Ref.libs) mismatch_example),
      (signals_of (L := Ref.libs) mismatch_example).
    destruct (result_lookups (L := Ref.libs) mismatch_example)
      as (_ & _ & _ & Hb' & Hf' & _).
    split; [apply analyze_eq|]. split; [exact Hb'|]. split.
    + rewrite Hf'. replace (headers_of (L := Ref.libs) mismatch_example).1
        with (str "a@bank.com") by (vm_compute; reflexivity). reflexivity.
    + vm_compute. reflexivity.
Qed.

(** ** The position of a keyword or a link *)

Lemma filter_signal_if (c : bool) (k : string) (v : Z) (d : Detail) :
  List.filter text_rule (signal_if c k v d)
  = if text_rule (k, v, d) then signal_if c k v d else [].
Proof. destruct c; simpl; [|by destruct (text_rule (k, v, d))]. reflexivity. Qed.

Section Position.
Context `{L : Libs}.

Lemma text_rules_of (raw : text) :
  List.filter text_rule (signals_of raw)
  = signal_if (nonempty (suspicious_urls_of raw)) "suspicious_url" 30
      (DList (suspicious_urls_of raw)) ++
    signal_if (nonempty (ip_urls_of raw)) "ip_url" 20 (DList (ip_urls_of raw)) ++
    signal_if (nonempty (http_only_of raw)) "http_not_https" 10
      (DList (http_only_of raw)) ++
    signal_if (len (url_findall raw) >=? 3) "multiple_links" 8
      (DCount (len (url_findall raw))) ++
    signal_if (nonempty (hits_of raw)) "urgent_language"
      (Z.min 15 (len (hits_of raw) * 3)) (DList (hits_of raw)) ++
    signal_if (negb (bad_tld_count_of raw =? 0)) "bad_tld"
      (Z.min 12 (bad_tld_count_of raw * 4)) (DCount (bad_tld_count_of raw)).
Proof.
  unfold signals_of. rewrite !List.filter_app, !filter_signal_if. reflexivity.
Qed.

Lemma text_rules_same (raw raw' : text) :
  url_findall raw' = url_findall raw ->
  (forall kw, In kw PHISHING_KEYWORDS ->
     (infix kw (lower raw') <-> infix kw (lower raw))) ->
  List.filter text_rule (signals_of raw') = List.filter text_rule (signals_of raw).
Proof.
  intros Hu Hk. rewrite !text_rules_of.
  assert (Hh : hits_of raw' = hits_of raw).
  { unfold hits_of. apply List.filter_ext_in. intros kw Hin.
    specialize (Hk kw Hin). rewrite <- !contains_infix in Hk.
    destruct (contains (lower raw') kw), (contains (lower raw) kw); intuition. }
  unfold suspicious_urls_of, ip_urls_of, http_only_of, bad_tld_count_of.
  rewrite Hu, Hh. reflexivity.
Qed.

Lemma mismatch_triggered_iff (raw : text) :
  triggered "sender_mismatch" (signals_of raw) <->
  exists from_hdr sd,
    result_of raw !! "sender"%string = Some (VStr from_hdr) /\
    sender_domain_of from_hdr = Ret sd /\
    sd <> [] /\ (exists ld, link_domain raw ld) /\
    forall ld, link_domain raw ld ->
      ~ (sd `suffix_of` ld \/ ld `suffix_of` sd \/
         last_item (split_on "." sd) `suffix_of` ld).
Proof.
  destruct (result_lookups raw) as (_ & _ & _ & _ & Hf & _).
  assert (Htrig : triggered "sender_mismatch" (signals_of raw) <-> mismatch_of raw = true).
  { rewrite triggered_iff. intuition discriminate. }
  rewrite Htrig, mismatch_iff. split.
  - intros H. exists (headers_of raw).1, (sender_domain raw).
    split; [exact Hf|]. split; [apply sender_domain_of_ret | exact H].
  - intros (from_hdr & sd & Hs & Hsd & H).
    rewrite Hf in Hs. injection Hs as <-.
    rewrite sender_domain_of_ret in Hsd. injection Hsd as <-. exact H.
Qed.

End Position.

(** C10, as stated, fails for sender_mismatch: the same link, which is also
    an address-like text, placed in the From line makes evil.org the sender
    domain and no mismatch is raised, while in the body it leaves the sender
    at corp.com and raises one. The extracted URLs are the same. *)
Lemma C10_counterexample :
  exists d1 bd1 d2 bd2,
    analyze (L := Ref.libs) url_in_from = Ret d1 /\
    d1 !! "breakdown"%string = Some (VBreakdown bd1) /\
    analyze (L := Ref.libs) url_in_body = Ret d2 /\
    d2 !! "breakdown"%string = Some (VBreakdown bd2) /\
    d1 !! "urls"%string = Some (VList [str "www.x@evil.org"]) /\
    d2 !! "urls"%string = Some (VList [str "www.x@evil.org"]) /\
    ~ triggered "sender_mismatch" bd1 /\
    triggered "sender_mismatch" bd2.
Proof.
  exists (result_of (L := Ref.libs) url_in_from), (signals_of (L := Ref.libs) url_in_from),
    (result_of (L := Ref.libs) url_in_body), (signals_of (L := Ref.libs) url_in_body).
  destruct (result_lookups (L := Ref.libs) url_in_from) as (_ & _ & _ & Hb1 & _ & _ & Hu1 & _).
  destruct (result_lookups (L := Ref.libs) url_in_body) as (_ & _ & _ & Hb2 & _ & _ & Hu2 & _).
  split; [apply analyze_eq|]. split; [exact Hb1|].
  split; [apply analyze_eq|]. split; [exact Hb2|].
  split; [rewrite Hu1; do 2 f_equal|]. split; [rewrite Hu2; do 2 f_equal|].
  split.
  - unfold triggered. vm_compute. tauto.
  - unfold triggered. vm_compute. tauto.
Qed.

(** C10, amended. URL extraction and keyword matching read the entire raw
    text, header lines included. For every input the [urls] of the result
    are the matches of the URL pattern in the whole text; suspicious_url,
    ip_url, http_not_https, multiple_links and bad_tld are decided on that
    list and urgent_language on the whole lower-cased text, so a keyword
    counts wherever it stands (between any [pre] and [post]), and any
    message with the same URLs and the same keywords, wherever they stand,
    gets the same six signals. sender_mismatch takes its link domains from
    the whole text too, but compares them with the sender domain read from
    the From header, so it is not among these. On the two examples, one
    with a keyword and a link in the Subject header only and one with them
    in the body only, the same signals fire. *)
Theorem C10_whole_text `{L : Libs} (raw : text) :
  (exists d bd,
     analyze raw = Ret d /\
     d !! "breakdown"%string = Some (VBreakdown bd) /\
     d !! "urls"%string = Some (VList (url_findall raw)) /\
     (triggered "urgent_language" bd <->
      exists kw, In kw PHISHING_KEYWORDS /\ infix kw (lower raw)) /\
     (triggered "http_not_https" bd <->
      exists u, In u (url_findall raw) /\ str "http://" `prefix_of` u) /\
     (triggered "multiple_links" bd <-> 3 <= len (url_findall raw)) /\
     (triggered "ip_url" bd <->
      exists u, In u (url_findall raw) /\ is_ip_url u = Ret true) /\
     (triggered "suspicious_url" bd <->
      exists u dom, In u (url_findall raw) /\ domain_from_url u = Ret dom /\
                    suspicious_domain dom = true) /\
     (triggered "bad_tld" bd <->
      exists u dom, In u (url_findall raw) /\ domain_from_url u = Ret dom /\
                    long_label_domain dom = true) /\
     (triggered "sender_mismatch" bd <->
      exists from_hdr sd,
        d !! "sender"%string = Some (VStr from_hdr) /\
        sender_domain_of from_hdr = Ret sd /\
        sd <> [] /\ (exists ld, link_domain raw ld) /\
        forall ld, link_domain raw ld ->
          ~ (sd `suffix_of` ld \/ ld `suffix_of` sd \/
             last_item (split_on "." sd) `suffix_of` ld)) /\
     (forall raw',
        url_findall raw' = url_findall raw ->
        (forall kw, In kw PHISHING_KEYWORDS ->
           (infix kw (lower raw') <-> infix kw (lower raw))) ->
        exists d' bd',
          analyze raw' = Ret d' /\
          d' !! "breakdown"%string = Some (VBreakdown bd') /\
          List.filter text_rule bd' = List.filter text_rule bd)) /\
  Forall (fun kw => forall pre post, exists d bd,
            analyze (pre ++ kw ++ post) = Ret d /\
            d !! "breakdown"%string = Some (VBreakdown bd) /\
            triggered "urgent_language" bd) PHISHING_KEYWORDS /\
  (exists d1 bd1 d2 bd2,
     analyze (L := Ref.libs) header_only_example = Ret d1 /\
     d1 !! "breakdown"%string = Some (VBreakdown bd1) /\
     analyze (L := Ref.libs) body_only_example = Ret d2 /\
     d2 !! "breakdown"%string = Some (VBreakdown bd2) /\
     names bd1 = ["http_not_https"; "urgent_language"]%string /\
     names bd2 = names bd1 /\
     List.filter text_rule bd2 = List.filter text_rule bd1 /\
     d1 !! "urls"%string = Some (VList [str "http://example.com/a"]) /\
     d2 !! "urls"%string = d1 !! "urls"%string).
Proof.
  split; [|split].
  - exists (result_of raw), (signals_of raw).
    destruct (result_lookups raw) as (_ & _ & _ & Hb & _ & _ & Hu & _).
    split; [apply analyze_eq|]. split; [exact Hb|]. split; [exact Hu|].
    split; [apply urgent_triggered_iff|]. split; [apply http_not_https_iff|].
    split; [apply multiple_links_iff|]. split; [apply ip_url_iff|].
    split; [apply suspicious_url_iff|]. split; [apply bad_tld_iff|].
    split; [apply mismatch_triggered_iff|].
    intros raw' Hu' Hk'.
    exists (result_of raw'), (signals_of raw').
    destruct (result_lookups raw') as (_ & _ & _ & Hb' & _).
    split; [apply analyze_eq|]. split; [exact Hb'|].
    by apply text_rules_same.
  - apply List.Forall_forall. intros kw Hkw pre post.
    exists (result_of (pre ++ kw ++ post)), (signals_of (pre ++ kw ++ post)).
    destruct (result_lookups (pre ++ kw ++ post)) as (_ & _ & _ & Hb & _).
    split; [apply analyze_eq|]. split; [exact Hb|].
    apply urgent_triggered_iff. exists kw. split; [exact Hkw|].
    exists (lower pre), (lower post). rewrite !lower_app. do 2 f_equal.
    pose proof keywords_lower as Hl. rewrite List.Forall_forall in Hl.
    apply Hl, Hkw.
  - exists (result_of (L := Ref.libs) header_only_example),
      (signals_of (L := Ref.libs) header_only_example),
      (result_of (L := Ref.libs) body_only_example),
      (signals_of (L := Ref.libs) body_only_example).
    destruct (result_lookups (L := Ref.libs) header_only_example)
      as (_ & _ & _ & Hb1 & _ & _ & Hu1 & _).
    destruct (result_lookups (L := Ref.libs) body_only_example)
      as (_ & _ & _ & Hb2 & _ & _ & Hu2 & _).
    split; [apply analyze_eq|]. split; [exact Hb1|].
    split; [apply analyze_eq|]. split; [exact Hb2|].
    split; [vm_compute; reflexivity|]. split; [vm_compute; reflexivity|].
    split; [vm_compute; reflexivity|].
    rewrite Hu1, Hu2. split; f_equal; f_equal; vm_compute; reflexivity.
Qed.

(** ** URL extraction *)

Lemma take_while_prefix {A} (p : A -> bool) (l : list A) :
  exists rest, l = take_while p l ++ rest.
Proof. exists (drop (length (take_while p l)) l). symmetry. apply take_while_drop. Qed.

Lemma match_prefixed_spec (p l m : text) :
  match_prefixed p l = Some m ->
  exists rest, l = m ++ rest /\ m <> [].
Proof.
  unfold match_prefixed. destruct (startswith l p) eqn:E; [|discriminate].
  apply startswith_prefix in E as [k ->].
  rewrite drop_app_length.
  destruct (take_while_prefix url_char k) as [rest Hk].
  destruct (take_while url_char k) as [|c run]; [discriminate|].
  intros [= <-]. exists rest. split.
  - rewrite Hk at 1. by rewrite <- app_assoc.
  - by destruct p.
Qed.

Lemma url_match_at_spec (l m : text) :
  url_match_at l = Some m -> exists rest, l = m ++ rest /\ m <> [].
Proof.
  unfold url_match_at.
  destruct (match_prefixed (str "https://") l) eqn:E1.
  { intros [= <-]. by apply (match_prefixed_spec _ _ _ E1). }
  destruct (match_prefixed (str "http://") l) eqn:E2.
  { intros [= <-]. by apply (match_prefixed_spec _ _ _ E2). }
  apply match_prefixed_spec.
Qed.

Lemma findall_skip (m rest : text) :
  findall_from (length m) (m ++ rest) = findall_from 0 rest.
Proof. induction m as [|c m IH]; [reflexivity | exact IH]. Qed.

Lemma findall_Findall_len (n : nat) (t : text) :
  (length t <= n)%nat -> Findall t (findall_from 0 t).
Proof.
  revert t; induction n as [|n IH]; intros t Hn.
  - destruct t; [constructor | simpl in Hn; lia].
  - destruct t as [|c t]; [constructor|].
    cbn [findall_from]. destruct (url_match_at (c :: t)) as [m|] eqn:E.
    + destruct (url_match_at_spec _ _ E) as (rest & Hl & Hm).
      destruct m as [|c' m]; [done|]. injection Hl as <- ->.
      replace (length (c :: m) - 1)%nat with (length m) by (simpl; lia).
      rewrite findall_skip. apply (Findall_hit (c :: m)); [exact E|].
      apply IH. simpl in Hn. rewrite length_app in Hn. lia.
    + apply Findall_skip; [exact E|]. apply IH. simpl in Hn. lia.
Qed.

Lemma url_findall_Findall (t : text) : Findall t (url_findall t).
Proof. apply (findall_Findall_len (length t)). lia. Qed.

Lemma Findall_Cuts (t : text) (ms : list text) : Findall t ms -> Cuts ms t.
Proof.
  induction 1 as [|c t ms Hnone _ IH|m rest ms Hm _ IH].
  - apply Cuts_nil.
  - inversion IH as [gap|gap m ms' rest Hc]; subst.
    + apply Cuts_nil.
    + apply (Cuts_cons (c :: gap)). exact Hc.
  - apply (Cuts_cons []). exact IH.
Qed.

Lemma Cuts_infix (ms : list text) (t : text) :
  Cuts ms t -> List.Forall (fun u => infix u t) ms.
Proof.
  induction 1 as [gap|gap m ms rest _ IH]; constructor.
  - by exists gap, rest.
  - eapply List.Forall_impl; [|exact IH]. intros u (pre & post & ->).
    exists (gap ++ m ++ pre), post. by rewrite <- !app_assoc.
Qed.

(** C8. For every input text, the [urls] of the result are the matches of
    the URL pattern in the text: they cut the text in order and without
    overlap, so each is an exact substring of it, and every match the scan
    meets is reported, a repeated URL once per occurrence. *)
Theorem C8_urls_substrings `{L : Libs} (raw : text) :
  exists d urls,
    analyze raw = Ret d /\
    d !! "urls"%string = Some (VList urls) /\
    extract_urls raw = Ret urls /\
    List.Forall (fun u => infix u raw) urls /\
    Cuts urls raw /\
    Findall raw urls /\
    extract_urls (str "http://a.b www.c.d http://a.b")
      = Ret [str "http://a.b"; str "www.c.d"; str "http://a.b"].
Proof.
  exists (result_of raw), (url_findall raw).
  destruct (result_lookups raw) as (_ & _ & _ & _ & _ & _ & Hu & _).
  pose proof (url_findall_Findall raw) as HF.
  split; [apply analyze_eq|]. split; [exact Hu|]. split; [reflexivity|].
  split; [apply Cuts_infix, Findall_Cuts, HF|].
  split; [apply Findall_Cuts, HF|]. split; [exact HF|].
  vm_compute. reflexivity.
Qed.

(** ** Failures of the libraries *)

(** C7. For every input and whatever the libraries do, [analyze] returns a
    dict with the eight keys of its [return] statement. Each helper of
    [utils.py] returns too; when parsing the message raises, or a header
    lookup raises, the sender and reply-to are empty, and when parsing or
    walking the parts raises the attachment list is empty. *)
Theorem C7_never_raises `{L : Libs} (raw : text) :
  exists d from_hdr reply_to atts,
    analyze raw = Ret d /\
    dom d = list_to_set result_keys /\
    extract_sender_from_headers raw = Ret (from_hdr, reply_to) /\
    find_attachments raw = Ret atts /\
    d !! "sender"%string = Some (VStr from_hdr) /\
    d !! "reply_to"%string = Some (VStr reply_to) /\
    match message_from_string raw with
    | Raise => from_hdr = [] /\ reply_to = [] /\ atts = []
    | Ret msg =>
        match msg_getitem msg (str "From"), msg_getitem msg (str "Reply-To") with
        | Ret f, Ret r => from_hdr = or_empty f /\ reply_to = or_empty r
        | _, _ => from_hdr = [] /\ reply_to = []
        end /\
        match msg_walk msg with
        | Raise => atts = []
        | Ret parts =>
            match for_each attachment_step parts [] with
            | Raise => atts = []
            | Ret a => atts = a
            end
        end
    end /\
    (forall u, exists b dom, is_ip_url u = Ret b /\ domain_from_url u = Ret dom).
Proof.
  exists (result_of raw), (headers_of raw).1, (headers_of raw).2, (attachments_of raw).
  destruct (result_lookups raw) as (_ & _ & _ & _ & Hf & Hr & _).
  split; [apply analyze_eq|]. split; [apply result_dom|].
  split; [rewrite <- surjective_pairing; apply extract_sender_from_headers_ret|].
  split; [apply find_attachments_ret|]. split; [exact Hf|]. split; [exact Hr|].
  split.
  - unfold headers_of, attachments_of, extract_sender_from_headers, find_attachments.
    unfold mbind, Exc_bind.
    destruct (message_from_string raw) as [msg|]; cbn [try_except value_or fst snd];
      [|auto].
    split.
    + destruct (msg_getitem msg (str "From")) as [f|]; cbn [try_except value_or fst snd];
        [|auto].
      destruct (msg_getitem msg (str "Reply-To")) as [r|]; cbn [try_except value_or fst snd];
        auto.
    + destruct (msg_walk msg) as [parts|]; cbn [try_except value_or]; [|auto].
      destruct (for_each attachment_step parts []); cbn [try_except value_or]; auto.
  - intros u. exists (ip_of u), (domain_of u).
    split; [apply is_ip_url_ret | apply domain_from_url_ret].
Qed.

(** ** The IP pattern *)

Lemma digit_is_word (c : ascii) : is_digit c = true -> is_word c = true.
Proof. unfold is_word. intros ->. reflexivity. Qed.

Lemma digit_runs_spec (n : nat) (l r : text) :
  In r (digit_runs n l) <->
  exists g, l = g ++ r /\ (1 <= length g <= n)%nat /\
            List.Forall (fun c => is_digit c = true) g.
Proof.
  revert l; induction n as [|n IH]; intros l.
  - simpl. split; [intros [] | intros (g & _ & Hg & _); lia].
  - destruct l as [|c l]; simpl.
    + split; [intros [] | intros (g & Hl & Hg & _)].
      destruct g; [simpl in Hg; lia | discriminate].
    + destruct (is_digit c) eqn:Ec.
      * rewrite in_app_iff, IH. simpl. split.
        -- intros [(g & -> & Hg & Fg) | [<-|[]]].
           ++ exists (c :: g). repeat split; simpl; try lia. by constructor.
           ++ exists [c]. repeat split; simpl; try lia. by repeat constructor.
        -- intros (g & Hl & Hg & Fg). destruct g as [|c' g]; [simpl in Hg; lia|].
           injection Hl as <- ->. apply List.Forall_cons_iff in Fg as [_ Fg].
           destruct g as [|c'' g]; [right; by left | left].
           exists (c'' :: g). repeat split; simpl in *; try lia. exact Fg.
      * split; [intros [] | intros (g & Hl & Hg & Fg)].
        destruct g as [|c' g]; [simpl in Hg; lia|].
        injection Hl as <- ->. apply List.Forall_cons_iff in Fg as [Fc _]. congruence.
Qed.

Lemma dot_spec (l r : text) : In r (dot l) <-> l = "."%char :: r.
Proof.
  destruct l as [|c l]; simpl; [split; [intros [] | discriminate]|].
  destruct (ascii_eqb c ".") eqn:E.
  - apply ascii_eqb_eq in E as ->. simpl. split; [intros [<-|[]]; reflexivity|].
    intros [= ->]. by left.
  - split; [intros [] | intros [= -> _]].
    unfold ascii_eqb in E. by rewrite Ascii.eqb_refl in E.
Qed.

Lemma group_dot_spec (l r : text) :
  In r (group_dot l) <-> exists g, digit_group g /\ l = g ++ "."%char :: r.
Proof.
  unfold group_dot. rewrite in_flat_map. split.
  - intros (x & Hx & Hr). apply digit_runs_spec in Hx as (g & -> & Hg & Fg).
    apply dot_spec in Hr as ->. exists g. by split.
  - intros (g & [Hg Fg] & ->). exists ("."%char :: r). split.
    + apply digit_runs_spec. by exists g.
    + by apply dot_spec.
Qed.

Lemma end_boundary_spec (r : text) :
  end_boundary r = true <-> is_word_opt (head r) = false.
Proof.
  unfold end_boundary, word_boundary. simpl.
  destruct (is_word_opt (head r)); simpl; split; congruence.
Qed.

Lemma ip_match_here_spec (l : text) :
  ip_match_here l = true <->
  exists q post, l = q ++ post /\ dotted_quad q /\ is_word_opt (head post) = false.
Proof.
  unfold ip_match_here. rewrite existsb_exists. split.
  - intros (r & Hr & Hb). apply end_boundary_spec in Hb.
    apply in_flat_map in Hr as (x3 & Hx3 & Hr).
    apply in_flat_map in Hx3 as (x2 & Hx2 & Hx3).
    apply in_flat_map in Hx2 as (x1 & Hx1 & Hx2).
    apply group_dot_spec in Hx1 as (a & Ha & ->).
    apply group_dot_spec in Hx2 as (b & Hgb & ->).
    apply group_dot_spec in Hx3 as (c & Hgc & ->).
    apply digit_runs_spec in Hr as (d & -> & Hd).
    exists (a ++ "."%char :: b ++ "."%char :: c ++ "."%char :: d), r.
    split; [by repeat (rewrite <- app_assoc; simpl)|]. split; [|exact Hb].
    by exists a, b, c, d.
  - intros (q & post & -> & (a & b & c & d & Ha & Hgb & Hgc & Hd & ->) & Hb).
    exists post. split; [|by apply end_boundary_spec].
    apply in_flat_map. exists (d ++ post). split; [|apply digit_runs_spec; by exists d].
    apply in_flat_map. exists (c ++ "."%char :: d ++ post).
    split; [|apply group_dot_spec; by exists c].
    apply in_flat_map. exists (b ++ "."%char :: c ++ "."%char :: d ++ post).
    split; [|apply group_dot_spec; by exists b].
    apply group_dot_spec. exists a. split; [exact Ha|].
    by repeat (rewrite <- app_assoc; simpl).
Qed.

Lemma dotted_quad_head (q post : text) :
  dotted_quad q -> is_word_opt (head (q ++ post)) = true.
Proof.
  intros (a & b & c & d & [Ha Fa] & _ & _ & _ & ->).
  destruct a as [|x a]; [simpl in Ha; lia|]. simpl.
  apply List.Forall_cons_iff in Fa as [Fx _]. by apply digit_is_word.
Qed.

Lemma ip_search_from_spec (prev : option ascii) (l : text) :
  ip_search_from prev l = true <->
  exists pre q post,
    l = pre ++ q ++ post /\ dotted_quad q /\
    is_word_opt (match last pre with Some c => Some c | None => prev end) = false /\
    is_word_opt (head post) = false.
Proof.
  revert prev; induction l as [|c l IH]; intros prev; cbn [ip_search_from];
    rewrite orb_true_iff, andb_true_iff, ip_match_here_spec.
  - split.
    + intros [[Hw (q & post & Hl & Hq & Hp)] | H]; [|discriminate].
      exists [], q, post. repeat split; try assumption. simpl.
      unfold word_boundary in Hw. rewrite Hl, (dotted_quad_head _ _ Hq) in Hw.
      by destruct (is_word_opt prev).
    + intros (pre & q & post & Hl & Hq & Hpre & Hpost). left.
      destruct pre as [|x pre]; [|discriminate]. simpl in Hl, Hpre. split.
      * unfold word_boundary. rewrite Hl, (dotted_quad_head _ _ Hq), Hpre. reflexivity.
      * by exists q, post.
  - rewrite IH. split.
    + intros [[Hw (q & post & Hl & Hq & Hp)] | (pre & q & post & -> & Hq & Hpre & Hpost)].
      * exists [], q, post. repeat split; try assumption. simpl.
        unfold word_boundary in Hw. rewrite Hl, (dotted_quad_head _ _ Hq) in Hw.
        by destruct (is_word_opt prev).
      * exists (c :: pre), q, post. repeat split; try assumption.
        rewrite last_cons. by destruct (last pre).
    + intros (pre & q & post & Hl & Hq & Hpre & Hpost).
      destruct pre as [|x pre].
      * left. simpl in Hl, Hpre. split.
        -- unfold word_boundary. rewrite Hl, (dotted_quad_head _ _ Hq), Hpre. reflexivity.
        -- by exists q, post.
      * right. injection Hl as <- ->. exists pre, q, post.
        repeat split; try assumption.
        rewrite last_cons in Hpre. by destruct (last pre).
Qed.

Lemma IP_REGEX_search_spec (host : text) :
  IP_REGEX_search host = true <-> quad_inside host.
Proof.
  unfold IP_REGEX_search, quad_inside. rewrite ip_search_from_spec.
  split; intros (pre & q & post & Hl & Hq & Hpre & Hpost); exists pre, q, post;
    repeat split; try assumption; by destruct (last pre).
Qed.

Lemma dotted_quad_chars (q : text) :
  dotted_quad q ->
  List.Forall (fun c => (is_digit c || ascii_eqb c ".")%bool = true) q.
Proof.
  intros (a & b & c & d & [_ Fa] & [_ Fb] & [_ Fc] & [_ Fd] & ->).
  assert (G : forall g, List.Forall (fun c => is_digit c = true) g ->
              List.Forall (fun c => (is_digit c || ascii_eqb c ".")%bool = true) g).
  { intros g Fg. eapply List.Forall_impl; [|exact Fg]. simpl. by intros x ->. }
  repeat (apply List.Forall_app; split; [by apply G|]; apply List.Forall_cons; [reflexivity|]).
  by apply G.
Qed.

(** C4, as stated, fails: for the link http://1.2.3.4.evil.com the host is
    1.2.3.4.evil.com, not a dotted quad, and [is_ip_url] answers true. *)
Lemma C4_counterexample :
  is_ip_url (L := Ref.libs) quad_prefix_link = Ret true /\
  urlparse_hostname (Libs := Ref.libs) (with_scheme quad_prefix_link)
    = Ret (Some quad_prefix_host) /\
  ~ dotted_quad quad_prefix_host.
Proof.
  split; [vm_compute; reflexivity|]. split; [vm_compute; reflexivity|].
  intros Hq. apply dotted_quad_chars in Hq.
  rewrite List.Forall_forall in Hq.
  specialize (Hq "e"%char). simpl in Hq. discriminate Hq.
  unfold quad_prefix_host. simpl. tauto.
Qed.

(** C4, amended. For every URL string, [is_ip_url] returns; it answers true
    exactly when the URL, with http:// prepended unless it starts with http,
    parses and its host (empty when there is none) contains a dotted quad,
    four groups of one to three digits separated by dots, with no word
    character right before or right after it. The groups are not checked
    against 255. *)
Theorem C4_is_ip_url `{L : Libs} (u : text) :
  exists b,
    is_ip_url u = Ret b /\
    (b = true <->
     exists h, urlparse_hostname (with_scheme u) = Ret h /\ quad_inside (or_empty h)) /\
    ((str "http" `prefix_of` u /\ with_scheme u = u) \/
     (~ str "http" `prefix_of` u /\ with_scheme u = str "http://" ++ u)) /\
    quad_inside (str "999.999.999.999") /\
    forall q, dotted_quad q -> quad_inside q.
Proof.
  exists (ip_of u). split; [apply is_ip_url_ret|]. split; [|split; [|split]].
  - unfold ip_of, is_ip_url. unfold mbind, Exc_bind.
    destruct (urlparse_hostname (with_scheme u)) as [h|]; cbn [try_except value_or].
    + rewrite IP_REGEX_search_spec. split.
      * intros Hq. by exists h.
      * by intros (h' & [= <-] & Hq).
    + split; [discriminate | by intros (h' & [=] & _)].
  - unfold with_scheme. destruct (startswith u (str "http")) eqn:E.
    + left. split; [by apply startswith_prefix | reflexivity].
    + right. split; [|reflexivity]. rewrite <- startswith_prefix. congruence.
  - apply IP_REGEX_search_spec. vm_compute. reflexivity.
  - intros q Hq. exists [], q, []. rewrite app_nil_r. by repeat split.
Qed.

(** * Further properties of the engine *)

(** ** The breakdown and the score *)

Lemma names_app (a b : list Signal) : names (a ++ b) = names a ++ names b.
Proof. apply map_app. Qed.

Lemma names_signal_if_sublist (c : bool) (k : string) (v : Z) (d : Detail) :
  names (signal_if c k v d) `sublist_of` [k].
Proof. destruct c; simpl; [reflexivity | apply sublist_nil_l]. Qed.

Lemma sum_vals_signal_if_eq (c : bool) (k : string) (v : Z) (d : Detail) :
  sum_vals (signal_if c k v d) = if c then v else 0.
Proof. destruct c; simpl; unfold signal_val; simpl; lia. Qed.

Lemma pairs_signal_if (c : bool) (k : string) (v : Z) (d : Detail) :
  map (fun s => (signal_name s, signal_val s)) (signal_if c k v d)
  = if c then [(k, v)] else [].
Proof. by destruct c. Qed.

Section Breakdown.
Context `{L : Libs}.

Lemma names_signals_of (raw : text) : names (signals_of raw) `sublist_of` RULE_ORDER.
Proof.
  unfold signals_of. rewrite !names_app.
  change RULE_ORDER with
    (["suspicious_url"%string] ++ ["ip_url"%string] ++ ["http_not_https"%string] ++
     ["multiple_links"%string] ++ ["urgent_language"%string] ++
     ["suspicious_attachment"%string] ++ ["sender_mismatch"%string] ++
     ["bad_tld"%string]).
  repeat (apply sublist_app; [apply names_signal_if_sublist|]).
  apply names_signal_if_sublist.
Qed.

Lemma signals_at_least_3 (raw : text) :
  List.Forall (fun s => 3 <= signal_val s) (signals_of raw).
Proof.
  unfold signals_of.
  pose proof (len_nonneg (hits_of raw)) as Hh.
  pose proof (bad_tld_count_nonneg raw) as Hc.
  repeat (apply List.Forall_app; split).
  all: match goal with
       | |- List.Forall _ (signal_if ?c _ _ _) => destruct c eqn:E; constructor;
           try constructor; unfold signal_val; simpl
       end.
  all: try lia.
  destruct (hits_of raw); [discriminate|]. unfold len in *. simpl length in *. lia.
Qed.

Lemma sum_vals_lower_bound (bd : list Signal) :
  List.Forall (fun s => 3 <= signal_val s) bd -> 3 * len bd <= sum_vals bd.
Proof.
  induction 1 as [|s bd Hs _ IH]; unfold len in *; simpl in *; lia.
Qed.

End Breakdown.

(** X1. For every input the signals of the breakdown come in the fixed order
    of the rules (suspicious_url, ip_url, http_not_https, multiple_links,
    urgent_language, suspicious_attachment, sender_mismatch, bad_tld), each
    rule at most once: at most eight signals. *)
Theorem breakdown_in_rule_order `{L : Libs} (raw : text) :
  exists d bd,
    analyze raw = Ret d /\
    d !! "breakdown"%string = Some (VBreakdown bd) /\
    names bd `sublist_of` RULE_ORDER /\
    NoDup (names bd) /\
    (length bd <= 8)%nat.
Proof.
  exists (result_of raw), (signals_of raw).
  destruct (result_lookups raw) as (_ & _ & _ & Hb & _).
  pose proof (names_signals_of raw) as Hsub.
  split; [apply analyze_eq|]. split; [exact Hb|]. split; [exact Hsub|]. split.
  - eapply sublist_NoDup; [|exact Hsub].
    apply (bool_decide_unpack _). vm_compute. reflexivity.
  - apply sublist_length in Hsub. unfold names in Hsub.
    rewrite length_map in Hsub. exact Hsub.
Qed.

(** X2. Every emitted signal carries a weight of at least 3, so a rule that
    contributes nothing is never listed; the score is 0 exactly when no rule
    fired, and then the raw total is 0 too. *)
Theorem zero_score_iff_no_signal `{L : Libs} (raw : text) :
  exists d bd score,
    analyze raw = Ret d /\
    d !! "breakdown"%string = Some (VBreakdown bd) /\
    d !! "score"%string = Some (VInt score) /\
    d !! "raw_total"%string = Some (VInt (sum_vals bd)) /\
    List.Forall (fun s => 3 <= signal_val s) bd /\
    (score = 0 <-> bd = []) /\
    (sum_vals bd = 0 <-> bd = []).
Proof.
  exists (result_of raw), (signals_of raw), (normalize (sum_vals (signals_of raw)) 145).
  destruct (result_lookups raw) as (Hs & Ht & _ & Hb & _).
  pose proof (signals_at_least_3 raw) as H3.
  pose proof (sum_vals_lower_bound _ H3) as Hlow.
  pose proof (raw_total_range raw) as Hr.
  split; [apply analyze_eq|]. split; [exact Hb|]. split; [exact Hs|].
  split; [exact Ht|]. split; [exact H3|].
  rewrite (normalize_floor _ Hr).
  assert (Hnil : sum_vals (signals_of raw) = 0 <-> signals_of raw = []).
  { split.
    - intros H0. destruct (signals_of raw); [done|].
      unfold len in Hlow. simpl length in Hlow. lia.
    - intros ->. reflexivity. }
  split; [|exact Hnil]. rewrite <- Hnil. split.
  - intros Hq. destruct (Z.eq_dec (sum_vals (signals_of raw)) 0) as [|Hne]; [done|].
    assert (3 <= sum_vals (signals_of raw)).
    { destruct (signals_of raw); [simpl in Hne; lia|].
      unfold len in Hlow. simpl length in Hlow. lia. }
    assert (1 <= sum_vals (signals_of raw) * 100 / 145)
      by (apply Z.div_le_lower_bound; lia).
    lia.
  - intros ->. reflexivity.
Qed.

Section FullScore.
Context `{L : Libs}.

Lemma pairs_signals_of (raw : text) :
  map (fun s => (signal_name s, signal_val s)) (signals_of raw)
  = (if nonempty (suspicious_urls_of raw) then [("suspicious_url"%string, 30)] else []) ++
    (if nonempty (ip_urls_of raw) then [("ip_url"%string, 20)] else []) ++
    (if nonempty (http_only_of raw) then [("http_not_https"%string, 10)] else []) ++
    (if len (url_findall raw) >=? 3 then [("multiple_links"%string, 8)] else []) ++
    (if nonempty (hits_of raw)
     then [("urgent_language"%string, Z.min 15 (len (hits_of raw) * 3))] else []) ++
    (if nonempty (attachments_of raw) then [("suspicious_attachment"%string, 25)] else []) ++
    (if mismatch_of raw then [("sender_mismatch"%string, 25)] else []) ++
    (if negb (bad_tld_count_of raw =? 0)
     then [("bad_tld"%string, Z.min 12 (bad_tld_count_of raw * 4))] else []).
Proof.
  unfold signals_of. rewrite !map_app, !pairs_signal_if. reflexivity.
Qed.

Lemma sum_vals_signals_of (raw : text) :
  sum_vals (signals_of raw)
  = (if nonempty (suspicious_urls_of raw) then 30 else 0) +
    (if nonempty (ip_urls_of raw) then 20 else 0) +
    (if nonempty (http_only_of raw) then 10 else 0) +
    (if len (url_findall raw) >=? 3 then 8 else 0) +
    (if nonempty (hits_of raw) then Z.min 15 (len (hits_of raw) * 3) else 0) +
    (if nonempty (attachments_of raw) then 25 else 0) +
    (if mismatch_of raw then 25 else 0) +
    (if negb (bad_tld_count_of raw =? 0) then Z.min 12 (bad_tld_count_of raw * 4) else 0).
Proof.
  unfold signals_of. rewrite !sum_vals_app, !sum_vals_signal_if_eq. lia.
Qed.

End FullScore.

(** X3. The score is 100 exactly when all eight rules fired, each with its
    full weight (the two graded rules at their caps 15 and 12): any missing
    or partly weighted signal keeps the score below 100. *)
Theorem full_score_iff_all_rules `{L : Libs} (raw : text) :
  exists d bd score,
    analyze raw = Ret d /\
    d !! "breakdown"%string = Some (VBreakdown bd) /\
    d !! "score"%string = Some (VInt score) /\
    (score = 100 <->
     map (fun s => (signal_name s, signal_val s)) bd
     = [("suspicious_url", 30); ("ip_url", 20); ("http_not_https", 10);
        ("multiple_links", 8); ("urgent_language", 15);
        ("suspicious_attachment", 25); ("sender_mismatch", 25);
        ("bad_tld", 12)]%string).
Proof.
  exists (result_of raw), (signals_of raw), (normalize (sum_vals (signals_of raw)) 145).
  destruct (result_lookups raw) as (Hs & _ & _ & Hb & _).
  pose proof (raw_total_range raw) as Hr.
  split; [apply analyze_eq|]. split; [exact Hb|]. split; [exact Hs|].
  rewrite (normalize_floor _ Hr).
  assert (Hfull : sum_vals (signals_of raw) * 100 / 145 = 100
                  <-> sum_vals (signals_of raw) = 145).
  { split; [|intros ->; reflexivity]. intros Hq.
    destruct (Z.eq_dec (sum_vals (signals_of raw)) 145) as [|Hne]; [done|].
    assert (sum_vals (signals_of raw) * 100 / 145 < 100)
      by (apply Z.div_lt_upper_bound; lia).
    lia. }
  rewrite Hfull, sum_vals_signals_of, pairs_signals_of.
  pose proof (len_nonneg (hits_of raw)) as Hh.
  pose proof (bad_tld_count_nonneg raw) as Hc.
  destruct (nonempty (suspicious_urls_of raw)), (nonempty (ip_urls_of raw)),
    (nonempty (http_only_of raw)), (len (url_findall raw) >=? 3),
    (nonempty (hits_of raw)), (nonempty (attachments_of raw)), (mismatch_of raw),
    (negb (bad_tld_count_of raw =? 0)); simpl;
    (split; [intros Ht; try lia | intros Hp; try discriminate Hp]).
  - repeat f_equal; lia.
  - injection Hp as H15 H12. lia.
Qed.

(** X4. Six of the rules are flat: whenever suspicious_url, ip_url,
    http_not_https, multiple_links, suspicious_attachment or sender_mismatch
    is in the breakdown, it carries exactly the weight configured for it;
    only urgent_language and bad_tld can carry less than their weight. *)
Theorem flat_rules_full_weight `{L : Libs} (raw : text) :
  exists d bd,
    analyze raw = Ret d /\
    d !! "breakdown"%string = Some (VBreakdown bd) /\
    List.Forall
      (fun s => signal_name s = "urgent_language"%string \/
                signal_name s = "bad_tld"%string \/
                weights !! signal_name s = Some (signal_val s)) bd.
Proof.
  exists (result_of raw), (signals_of raw).
  destruct (result_lookups raw) as (_ & _ & _ & Hb & _).
  split; [apply analyze_eq|]. split; [exact Hb|].
  unfold signals_of.
  repeat (apply List.Forall_app; split);
    match goal with
    | |- List.Forall _ (signal_if ?c _ _ _) =>
        destruct c; [apply List.Forall_cons; [|apply List.Forall_nil]
                    | apply List.Forall_nil]
    end;
    unfold signal_name, signal_val; simpl;
    first [left; reflexivity | right; left; reflexivity | right; right; reflexivity].
Qed.

(** X5. The score never decreases when the raw total grows: over the totals
    the rules can produce, a larger total gives a score at least as high. *)
Theorem normalize_monotone (t t' : Z) :
  0 <= t -> t <= t' -> t' <= 145 ->
  normalize t 145 <= normalize t' 145.
Proof.
  intros H0 Hle H145.
  rewrite !normalize_floor by lia.
  apply Z.div_le_mono; lia.
Qed.

Lemma normalize_monotone_witness : normalize 8 145 <= normalize 81 145.
Proof. apply (normalize_monotone 8 81); lia. Defined.

(** ** The page: risk label and advice *)

Lemma score_bands (t : Z) :
  0 <= t <= 145 ->
  (t * 100 / 145 < 30 <-> t <= 43) /\ (t * 100 / 145 < 60 <-> t <= 86).
Proof.
  intros Ht. split; split; intros H.
  - destruct (Z_le_gt_dec t 43) as [|Hgt]; [done|].
    assert (30 <= t * 100 / 145) by (apply Z.div_le_lower_bound; lia). lia.
  - apply Z.div_lt_upper_bound; lia.
  - destruct (Z_le_gt_dec t 86) as [|Hgt]; [done|].
    assert (60 <= t * 100 / 145) by (apply Z.div_le_lower_bound; lia). lia.
  - apply Z.div_lt_upper_bound; lia.
Qed.

(** X6. The label next to the score and the advice of the overview tab
    always agree, and follow the raw total: up to 43 the page says low risk
    and shows the success box, from 44 to 86 medium risk and the warning
    box, from 87 on high risk and the error box. *)
Theorem risk_label_matches_advice `{L : Libs} (raw : text) :
  exists d score t,
    analyze raw = Ret d /\
    d !! "score"%string = Some (VInt score) /\
    d !! "raw_total"%string = Some (VInt t) /\
    ((t <= 43 /\ (risk_badge score).1 = "Low risk (likely legitimate)"%string /\
      overview_callout score = st_success) \/
     (44 <= t <= 86 /\ (risk_badge score).1 = "Medium risk — review carefully"%string /\
      overview_callout score = st_warning) \/
     (87 <= t /\ (risk_badge score).1 = "High risk — likely phishing"%string /\
      overview_callout score = st_error)).
Proof.
  exists (result_of raw), (normalize (sum_vals (signals_of raw)) 145),
    (sum_vals (signals_of raw)).
  destruct (result_lookups raw) as (Hs & Ht & _).
  pose proof (raw_total_range raw) as Hr.
  split; [apply analyze_eq|]. split; [exact Hs|]. split; [exact Ht|].
  rewrite (normalize_floor _ Hr).
  destruct (score_bands _ Hr) as [H30 H60].
  unfold risk_badge, overview_callout.
  destruct (Z_le_gt_dec (sum_vals (signals_of raw)) 43) as [Hlow|Hlow].
  - left. apply H30 in Hlow as Hq.
    rewrite (proj2 (Z.ltb_lt _ _) Hq).
    replace (sum_vals (signals_of raw) * 100 / 145 >=? 60) with false by lia.
    replace (sum_vals (signals_of raw) * 100 / 145 >=? 30) with false by lia.
    auto.
  - destruct (Z_le_gt_dec (sum_vals (signals_of raw)) 86) as [Hmid|Hmid].
    + right; left. apply H60 in Hmid as Hq.
      assert (~ sum_vals (signals_of raw) * 100 / 145 < 30) by (rewrite H30; lia).
      replace (sum_vals (signals_of raw) * 100 / 145 <? 30) with false by lia.
      rewrite (proj2 (Z.ltb_lt _ _) Hq).
      replace (sum_vals (signals_of raw) * 100 / 145 >=? 60) with false by lia.
      replace (sum_vals (signals_of raw) * 100 / 145 >=? 30) with true by lia.
      split; [lia | auto].
    + right; right.
      assert (~ sum_vals (signals_of raw) * 100 / 145 < 30) by (rewrite H30; lia).
      assert (~ sum_vals (signals_of raw) * 100 / 145 < 60) by (rewrite H60; lia).
      replace (sum_vals (signals_of raw) * 100 / 145 <? 30) with false by lia.
      replace (sum_vals (signals_of raw) * 100 / 145 <? 60) with false by lia.
      replace (sum_vals (signals_of raw) * 100 / 145 >=? 60) with true by lia.
      split; [lia | auto].
Qed.

(** ** The graded rule bad_tld *)

Lemma find_signal_if_last (c : bool) (k : string) (v : Z) (d : Detail) :
  signal_val <$> List.find (fun s => bool_decide (signal_name s = k)) (signal_if c k v d)
  = if c then Some v else None.
Proof.
  rewrite <- (app_nil_r (signal_if c k v d)).
  apply find_signal_if_eq. intros s [].
Qed.

Lemma length_filter_map {A B} (f : A -> B) (p : B -> bool) (l : list A) :
  length (List.filter (fun x => p (f x)) l) = length (List.filter p (map f l)).
Proof.
  induction l as [|x l IH]; simpl; [done|]. destruct (p (f x)); simpl; lia.
Qed.

Lemma long_label_domain_spec (dom : text) :
  long_label_domain dom = true <->
  dom <> [] /\ exists label, In label (split_on "." dom) /\ (10 < length label)%nat.
Proof.
  unfold long_label_domain. rewrite andb_true_iff, truthy_true, existsb_exists.
  split; intros [Hd (label & Hin & Hl)]; (split; [done|]); exists label;
    (split; [done|]); unfold len in *; lia.
Qed.

Section BadTld.
Context `{L : Libs}.

Lemma applied_bad_tld (raw : text) :
  applied "bad_tld" (signals_of raw)
  = if negb (bad_tld_count_of raw =? 0)
    then Some (Z.min 12 (bad_tld_count_of raw * 4)) else None.
Proof.
  unfold applied, signals_of.
  rewrite !find_signal_if_ne by discriminate.
  apply find_signal_if_last.
Qed.

Lemma domains_Forall2 (urls : list text) :
  Forall2 (fun u dom => domain_from_url u = Ret dom) urls (map domain_of urls).
Proof.
  induction urls as [|u urls IH]; constructor; [apply domain_from_url_ret | exact IH].
Qed.

End BadTld.

(** X7. The bad_tld rule is graded by URLs, not by distinct domains: with
    [n] the number of extracted URLs (repeats included) whose domain has a
    dot-separated label longer than 10 characters, the signal is absent when
    [n] is 0 and carries min(12, 4 n) otherwise, so three such links reach
    the cap. *)
Theorem bad_tld_weight `{L : Libs} (raw : text) :
  exists d bd doms,
    analyze raw = Ret d /\
    d !! "breakdown"%string = Some (VBreakdown bd) /\
    Forall2 (fun u dom => domain_from_url u = Ret dom) (url_findall raw) doms /\
    applied "bad_tld" bd
      = (let n := len (List.filter long_label_domain doms) in
         if n =? 0 then None else Some (Z.min 12 (4 * n))) /\
    (forall dom, long_label_domain dom = true <->
       dom <> [] /\ exists label, In label (split_on "." dom) /\ (10 < length label)%nat).
Proof.
  exists (result_of raw), (signals_of raw), (map domain_of (url_findall raw)).
  destruct (result_lookups raw) as (_ & _ & _ & Hb & _).
  split; [apply analyze_eq|]. split; [exact Hb|]. split; [apply domains_Forall2|].
  split; [|apply long_label_domain_spec].
  rewrite applied_bad_tld. unfold bad_tld_count_of, len.
  rewrite length_filter_map. cbv zeta.
  destruct (Z.of_nat (length (List.filter long_label_domain
                                (map domain_of (url_findall raw)))) =? 0);
    simpl; [reflexivity|]. do 2 f_equal. lia.
Qed.

(** ** Domains are lower-case *)


(** ** The shape of the extracted URLs *)

Lemma match_prefixed_shape (p l m : text) :
  In p URL_PREFIXES -> match_prefixed p l = Some m ->
  exists rest, l = m ++ rest /\ url_shape m rest.
Proof.
  intros Hp. unfold match_prefixed. destruct (startswith l p) eqn:E; [|discriminate].
  apply startswith_prefix in E as [k ->]. rewrite drop_app_length.
  pose proof (take_while_drop url_char k) as Hk.
  pose proof (take_while_Forall url_char k) as Hf.
  pose proof (take_while_maximal url_char k) as Hmax.
  destruct (take_while url_char k) as [|c run] eqn:Et; [discriminate|].
  intros [= <-]. exists (drop (length (c :: run)) k). split.
  - rewrite <- Hk at 1. by rewrite <- app_assoc.
  - exists p, (c :: run). by repeat split.
Qed.

Lemma url_match_at_shape (l m : text) :
  url_match_at l = Some m -> exists rest, l = m ++ rest /\ url_shape m rest.
Proof.
  unfold url_match_at.
  destruct (match_prefixed (str "https://") l) eqn:E1.
  { intros [= <-]. apply (match_prefixed_shape _ _ _ (or_introl eq_refl) E1). }
  destruct (match_prefixed (str "http://") l) eqn:E2.
  { intros [= <-].
    apply (match_prefixed_shape _ _ _ (or_intror (or_introl eq_refl)) E2). }
  apply match_prefixed_shape. right; right; by left.
Qed.

Lemma Findall_shape (t : text) (ms : list text) :
  Findall t ms ->
  List.Forall (fun m => exists pre post, t = pre ++ m ++ post /\ url_shape m post) ms.
Proof.
  induction 1 as [|c t ms Hnone _ IH|m rest ms Hm _ IH].
  - constructor.
  - eapply List.Forall_impl; [|exact IH].
    intros m (pre & post & -> & Hs). by exists (c :: pre), post.
  - constructor.
    + destruct (url_match_at_shape _ _ Hm) as (rest' & Heq & Hs).
      apply app_inv_head in Heq as <-. by exists [], rest.
    + eapply List.Forall_impl; [|exact IH].
      intros m' (pre & post & -> & Hs). exists (m ++ pre), post.
      by rewrite <- !app_assoc.
Qed.

Lemma url_prefix_chars : List.Forall (List.Forall (fun c => url_char c = true)) URL_PREFIXES.
Proof. repeat constructor. Qed.

(** X10. Every extracted URL starts with https://, http:// or www., goes on
    with at least one more character, holds no white space, apostrophe or
    double quote, and is cut from the text exactly where such a character
    (or the end of the text) follows: trailing punctuation such as a comma
    stays part of the URL. *)
Theorem extract_urls_shape (t : text) :
  exists urls,
    extract_urls t = Ret urls /\
    List.Forall
      (fun u =>
         (exists p run, In p URL_PREFIXES /\ u = p ++ run /\ run <> []) /\
         List.Forall (fun c => url_char c = true) u /\
         exists pre post,
           t = pre ++ u ++ post /\
           match post with
           | [] => True
           | c :: _ => url_char c = false
           end) urls /\
    extract_urls (str "see http://a.b/c, then") = Ret [str "http://a.b/c,"].
Proof.
  exists (url_findall t). split; [reflexivity|]. split; [|vm_compute; reflexivity].
  eapply List.Forall_impl; [|apply Findall_shape, url_findall_Findall].
  intros u (pre & post & Ht & p & run & Hp & Hu & Hrun & Hf & Hmax).
  split; [by exists p, run|]. split.
  - rewrite Hu. apply List.Forall_app. split; [|exact Hf].
    pose proof url_prefix_chars as Hpc. rewrite List.Forall_forall in Hpc.
    by apply Hpc.
  - by exists pre, post.
Qed.

Lemma no_prefix_no_urls (t : text) :
  (forall p, In p URL_PREFIXES -> ~ infix p t) -> url_findall t = [].
Proof.
  intros Hno. pose proof (Findall_shape _ _ (url_findall_Findall t)) as Hs.
  destruct (url_findall t) as [|u us]; [done|].
  apply List.Forall_cons_iff in Hs as [(pre & post & Ht & p & run & Hp & Hu & _) _].
  destruct (Hno p Hp). exists pre, (run ++ post).
  rewrite Ht, Hu. by rewrite <- app_assoc.
Qed.

(** X11. A message in which none of https://, http:// and www. occurs has no
    URLs, and then none of the six rules that look at links can fire:
    whatever its headers and attachments, only urgent_language and
    suspicious_attachment can be in the breakdown, so the raw total is at
    most 40. *)
Theorem no_links_no_link_signals `{L : Libs} (raw : text) :
  ~ infix (str "https://") raw ->
  ~ infix (str "http://") raw ->
  ~ infix (str "www.") raw ->
  exists d bd,
    analyze raw = Ret d /\
    d !! "urls"%string = Some (VList []) /\
    d !! "breakdown"%string = Some (VBreakdown bd) /\
    (forall n, triggered n bd ->
       n = "urgent_language"%string \/ n = "suspicious_attachment"%string) /\
    d !! "raw_total"%string = Some (VInt (sum_vals bd)) /\
    sum_vals bd <= 40.
Proof.
  intros H1 H2 H3.
  assert (Hu : url_findall raw = []).
  { apply no_prefix_no_urls. intros p [<-|[<-|[<-|[]]]]; assumption. }
  exists (result_of raw), (signals_of raw).
  destruct (result_lookups raw) as (_ & Ht & _ & Hb & _ & _ & Hurls & _).
  rewrite Hu in Hurls.
  assert (Hsus : suspicious_urls_of raw = []) by (unfold suspicious_urls_of; by rewrite Hu).
  assert (Hip : ip_urls_of raw = []) by (unfold ip_urls_of; by rewrite Hu).
  assert (Hhttp : http_only_of raw = []) by (unfold http_only_of; by rewrite Hu).
  assert (Hbad : bad_tld_count_of raw = 0) by (unfold bad_tld_count_of; by rewrite Hu).
  assert (Hmis : mismatch_of raw = false).
  { unfold mismatch_of, link_domains_of. rewrite Hu. simpl fold_left.
    assert (E : filter (fun d : text => truthy d = true) (∅ : gset text) = ∅)
      by set_solver.
    rewrite E, elements_empty. simpl.
    destruct (truthy (sender_domain raw)); reflexivity. }
  split; [apply analyze_eq|]. split; [exact Hurls|]. split; [exact Hb|].
  split; [|split; [exact Ht|]].
  - intros n Hn. apply triggered_iff in Hn.
    rewrite Hsus, Hip, Hhttp, Hbad, Hmis, Hu in Hn. simpl in Hn.
    intuition discriminate.
  - rewrite sum_vals_signals_of, Hsus, Hip, Hhttp, Hbad, Hmis, Hu. simpl.
    destruct (nonempty (hits_of raw)), (nonempty (attachments_of raw)); lia.
Qed.

(** The plain message of the examples names no link. *)
Lemma no_links_no_link_signals_witness :
  exists d bd,
    analyze (L := Ref.libs) plain_example = Ret d /\
    d !! "urls"%string = Some (VList []) /\
    d !! "breakdown"%string = Some (VBreakdown bd) /\
    (forall n, triggered n bd ->
       n = "urgent_language"%string \/ n = "suspicious_attachment"%string) /\
    d !! "raw_total"%string = Some (VInt (sum_vals bd)) /\
    sum_vals bd <= 40.
Proof.
  apply (no_links_no_link_signals (L := Ref.libs) plain_example);
    rewrite <- contains_infix; vm_compute; discriminate.
Defined.

(** ** Attachments *)

Lemma ext_suffix_free :
  forall e1 e2, In e1 SUSPICIOUS_EXT -> In e2 SUSPICIOUS_EXT ->
                e1 `suffix_of` e2 -> e1 = e2.
Proof.
  assert (H : forallb (fun e1 => forallb (fun e2 =>
                implb (endswith e2 e1) (bool_decide (e1 = e2)))
                SUSPICIOUS_EXT) SUSPICIOUS_EXT = true) by (vm_compute; reflexivity).
  intros e1 e2 H1 H2 Hs. rewrite forallb_forall in H.
  specialize (H e1 H1). rewrite forallb_forall in H. specialize (H e2 H2).
  apply endswith_suffix in Hs. rewrite Hs in H. simpl in H.
  by apply bool_decide_eq_true in H.
Qed.

(** A filename ends with at most one of the dangerous extensions. *)
Lemma ext_unique (fn e1 e2 : text) :
  In e1 SUSPICIOUS_EXT -> In e2 SUSPICIOUS_EXT ->
  endswith fn e1 = true -> endswith fn e2 = true -> e1 = e2.
Proof.
  intros H1 H2 E1 E2. apply endswith_suffix in E1, E2.
  destruct (suffix_weak_total _ _ _ E1 E2) as [Hs|Hs].
  - by apply ext_suffix_free.
  - symmetry. by apply ext_suffix_free.
Qed.

Lemma fold_append_once (q : text -> bool) (fn : text) (l : list text) (acc : list text) :
  List.NoDup l ->
  (forall a b, In a l -> In b l -> q a = true -> q b = true -> a = b) ->
  fold_left (fun exts ext => if q ext then exts ++ [fn] else exts) l acc
  = if existsb q l then acc ++ [fn] else acc.
Proof.
  revert acc; induction l as [|e l IH]; intros acc Hnd Hu; simpl; [done|].
  apply List.NoDup_cons_iff in Hnd as [Hnotin Hnd].
  rewrite IH; [|exact Hnd|intros a b Ha Hb; apply Hu; by right].
  destruct (q e) eqn:Ee; simpl; [|done].
  destruct (existsb q l) eqn:El; [|done].
  apply existsb_exists in El as (b & Hb & Hqb).
  destruct Hnotin. rewrite (Hu e b); [exact Hb | by left | by right | exact Ee | exact Hqb].
Qed.

Lemma SUSPICIOUS_EXT_NoDup : List.NoDup SUSPICIOUS_EXT.
Proof. apply NoDup_ListNoDup, (bool_decide_unpack _). vm_compute. reflexivity. Qed.

Lemma ext_loop (fn : text) (exts : list text) :
  fold_left (fun exts ext => if endswith (lower fn) ext then exts ++ [fn] else exts)
    SUSPICIOUS_EXT exts
  = if dangerous fn then exts ++ [fn] else exts.
Proof.
  apply (fold_append_once (fun ext => endswith (lower fn) ext));
    [apply SUSPICIOUS_EXT_NoDup|].
  intros a b Ha Hb. by apply ext_unique.
Qed.

Lemma dangerous_spec (fn : text) :
  dangerous fn = true <-> exists ext, In ext SUSPICIOUS_EXT /\ ext `suffix_of` lower fn.
Proof.
  unfold dangerous. rewrite existsb_exists.
  split; intros (ext & Hin & H); exists ext; (split; [done|]); by apply endswith_suffix.
Qed.

Section Attachments.
Context `{L : Libs}.

Lemma attachment_step_grows (exts : list text) (part : Message) (exts' : list text) :
  attachment_step exts part = Ret exts' ->
  exts' = exts \/ exists fn, dangerous fn = true /\ exts' = exts ++ [fn].
Proof.
  unfold attachment_step, mbind, Exc_bind.
  destruct (get_content_disposition part) as [cd|]; [|discriminate].
  destruct (bool_decide (cd = Some (str "attachment"))); [|intros [= <-]; by left].
  destruct (get_filename part []) as [f|]; [|discriminate].
  simpl or_empty. rewrite ext_loop. intros [= <-].
  destruct (dangerous f) eqn:E; [right; by exists f | by left].
Qed.

Lemma attachment_loop_bound (parts : list Message) (exts atts : list text) :
  for_each attachment_step parts exts = Ret atts ->
  List.Forall (fun fn => dangerous fn = true) exts ->
  List.Forall (fun fn => dangerous fn = true) atts /\
  (length atts <= length exts + length parts)%nat.
Proof.
  revert exts; induction parts as [|p parts IH]; intros exts; simpl.
  - intros [= <-] Hf. split; [exact Hf | lia].
  - unfold mbind, Exc_bind.
    destruct (attachment_step exts p) as [exts'|] eqn:E; [|discriminate].
    intros Hloop Hf. apply attachment_step_grows in E.
    destruct E as [->|(fn & Hd & ->)].
    + destruct (IH _ Hloop Hf). split; [done | lia].
    + destruct (IH _ Hloop) as [Hall Hlen].
      * apply List.Forall_app. split; [exact Hf | by constructor].
      * split; [done|]. rewrite length_app in Hlen. simpl in Hlen. lia.
Qed.

Lemma attachment_loop_views (parts : list Message) (views : list PartView)
    (exts : list text) :
  Forall2 (fun p v =>
             get_content_disposition p = Ret v.1 /\
             (v.1 = Some (str "attachment") -> get_filename p [] = Ret v.2))
    parts views ->
  for_each attachment_step parts exts
  = Ret (exts ++ map snd (List.filter reported views)).
Proof.
  intros HF. revert exts. induction HF as [|p v parts views [Hcd Hfn] _ IH]; intros exts.
  - simpl. by rewrite app_nil_r.
  - assert (Hstep : attachment_step exts p
                    = Ret (if reported v then exts ++ [v.2] else exts)).
    { unfold attachment_step, mbind, Exc_bind, reported. rewrite Hcd.
      destruct (bool_decide (v.1 = Some (str "attachment"))) eqn:Eb; [|reflexivity].
      apply bool_decide_eq_true in Eb. rewrite (Hfn Eb). simpl or_empty.
      rewrite ext_loop. reflexivity. }
    cbn [for_each]. unfold mbind, Exc_bind. rewrite Hstep, IH.
    simpl List.filter. destruct (reported v); [|reflexivity].
    simpl. by rewrite <- app_assoc.
Qed.

Lemma applied_attachment (raw : text) :
  applied "suspicious_attachment" (signals_of raw)
  = if nonempty (attachments_of raw) then Some 25 else None.
Proof.
  unfold applied, signals_of.
  rewrite !find_signal_if_ne by discriminate.
  apply find_signal_if_eq. intros s Hs.
  rewrite !in_app_iff in Hs.
  destruct Hs as [Hs|Hs]; apply signal_if_name in Hs; rewrite Hs; discriminate.
Qed.

End Attachments.

(** X12. [find_attachments] never reports a filename without a dangerous
    extension: every entry ends, case-insensitively, with one of the nine
    extensions. It reports at most one entry per part of the message, since
    a filename ends with at most one of the extensions, whatever the order
    in which the set is iterated. The suspicious_attachment signal is in the
    breakdown, with the flat weight 25, exactly when the list is not empty. *)
Theorem find_attachments_only_dangerous `{L : Libs} (raw : text) :
  exists atts d bd,
    find_attachments raw = Ret atts /\
    List.Forall
      (fun fn => exists ext, In ext SUSPICIOUS_EXT /\ ext `suffix_of` lower fn) atts /\
    match message_from_string raw with
    | Ret msg =>
        match msg_walk msg with
        | Ret parts => (length atts <= length parts)%nat
        | Raise => atts = []
        end
    | Raise => atts = []
    end /\
    (forall fn e1 e2, In e1 SUSPICIOUS_EXT -> In e2 SUSPICIOUS_EXT ->
        e1 `suffix_of` fn -> e2 `suffix_of` fn -> e1 = e2) /\
    analyze raw = Ret d /\
    d !! "breakdown"%string = Some (VBreakdown bd) /\
    (triggered "suspicious_attachment" bd <-> atts <> []) /\
    applied "suspicious_attachment" bd = (if nonempty atts then Some 25 else None).
Proof.
  exists (attachments_of raw), (result_of raw), (signals_of raw).
  destruct (result_lookups raw) as (_ & _ & _ & Hb & _).
  split; [apply find_attachments_ret|].
  assert (Hloop : List.Forall (fun fn => dangerous fn = true) (attachments_of raw) /\
    match message_from_string raw with
    | Ret msg =>
        match msg_walk msg with
        | Ret parts => (length (attachments_of raw) <= length parts)%nat
        | Raise => attachments_of raw = []
        end
    | Raise => attachments_of raw = []
    end).
  { unfold attachments_of, find_attachments, mbind, Exc_bind.
    destruct (message_from_string raw) as [msg|]; cbn [try_except value_or];
      [|split; [constructor | reflexivity]].
    destruct (msg_walk msg) as [parts|]; cbn [try_except value_or];
      [|split; [constructor | reflexivity]].
    destruct (for_each attachment_step parts []) as [atts|] eqn:E;
      cbn [try_except value_or]; [|split; [constructor | simpl; lia]].
    destruct (attachment_loop_bound _ _ _ E) as [Hall Hlen]; [constructor|].
    split; [exact Hall | simpl in Hlen; lia]. }
  destruct Hloop as [Hall Hlen].
  split. { eapply List.Forall_impl; [|exact Hall]. intros fn. apply dangerous_spec. }
  split; [exact Hlen|]. split.
  { intros fn e1 e2 H1 H2 S1 S2. apply (ext_unique fn); try assumption;
      by apply endswith_suffix. }
  split; [apply analyze_eq|]. split; [exact Hb|]. split.
  - rewrite triggered_iff, <- nonempty_true. intuition discriminate.
  - apply applied_attachment.
Qed.

(** X13. When the library parses the message, walks its parts and answers
    for each part (its content disposition, and its filename when the
    disposition is attachment), [find_attachments] returns, in the order of
    the parts, the filenames of exactly those parts whose disposition is
    attachment and whose filename has a dangerous extension. A part that is
    an attachment with a harmless name, or a part with a dangerous name that
    is not an attachment, is not reported. *)
Theorem find_attachments_reports `{L : Libs} (raw : text) (msg : Message)
    (parts : list Message) (views : list PartView) :
  message_from_string raw = Ret msg ->
  msg_walk msg = Ret parts ->
  Forall2 (fun p v =>
             get_content_disposition p = Ret v.1 /\
             (v.1 = Some (str "attachment") -> get_filename p [] = Ret v.2))
    parts views ->
  find_attachments raw = Ret (map snd (List.filter reported views)).
Proof.
  intros Hm Hw HF. unfold find_attachments, mbind, Exc_bind.
  rewrite Hm, Hw. rewrite (attachment_loop_views parts views [] HF). reflexivity.
Qed.

(** On the reference instance, a single part named invoice.pdf.EXE sent as
    an attachment is reported. *)
Lemma find_attachments_reports_witness :
  find_attachments (L := Ref.libs) attachment_example = Ret [str "invoice.pdf.EXE"].
Proof.
  apply (find_attachments_reports (L := Ref.libs) attachment_example
           (Ref.parse attachment_example) [Ref.parse attachment_example]
           [(Some (str "attachment"), str "invoice.pdf.EXE")]).
  - reflexivity.
  - reflexivity.
  - constructor; [|constructor]. split; [vm_compute; reflexivity|].
    intros _. vm_compute. reflexivity.
Defined.

(** ** A dotted-quad domain is a suspicious domain *)

Lemma split_on_length (c : ascii) (s : text) :
  len (split_on c s) = count_char c s + 1.
Proof.
  unfold len, count_char. induction s as [|a s IH]; simpl; [reflexivity|].
  rewrite filter_cons. destruct (ascii_eqb a c) eqn:E.
  - rewrite decide_True by done. simpl length. lia.
  - rewrite decide_False by congruence.
    destruct (split_on c s) as [|p ps] eqn:Es; simpl length in *; lia.
Qed.

Lemma count_char_app (c : ascii) (a b : text) :
  count_char c (a ++ b) = count_char c a + count_char c b.
Proof. unfold count_char. rewrite filter_app, length_app. lia. Qed.

Lemma count_dot_digits (g : text) :
  List.Forall (fun c => is_digit c = true) g -> count_char "." g = 0.
Proof.
  unfold count_char. induction 1 as [|a g Ha _ IH]; [reflexivity|].
  rewrite filter_cons. destruct (ascii_eqb a ".") eqn:E.
  - apply ascii_eqb_eq in E. subst a. discriminate Ha.
  - rewrite decide_False by congruence. exact IH.
Qed.

Lemma count_char_cons_eq (c : ascii) (s : text) :
  count_char c (c :: s) = 1 + count_char c s.
Proof.
  unfold count_char. rewrite filter_cons, decide_True.
  - simpl length. lia.
  - unfold ascii_eqb. apply Ascii.eqb_refl.
Qed.

Lemma dotted_quad_suspicious (dom : text) :
  dotted_quad dom -> suspicious_domain dom = true.
Proof.
  intros (a & b & c & d & [Ha Fa] & [_ Fb] & [_ Fc] & [_ Fd] & ->).
  unfold suspicious_domain. rewrite split_on_length.
  rewrite !count_char_app, !count_char_cons_eq, !count_char_app, !count_char_cons_eq.
  rewrite !count_char_app, !count_char_cons_eq.
  rewrite !count_dot_digits by assumption.
  destruct a; [simpl in Ha; lia|].
  apply andb_true_iff. split; [reflexivity|].
  apply orb_true_iff. right. reflexivity.
Qed.

(** X14. A link whose host is an IP literal is counted twice when its
    domain is that literal: the four labels of a dotted quad make the domain
    suspicious (more than three labels), so suspicious_url fires together
    with ip_url and the raw total is at least 50. *)
Theorem ip_literal_counts_twice `{L : Libs} (raw u dom : text) :
  In u (url_findall raw) ->
  is_ip_url u = Ret true ->
  domain_from_url u = Ret dom ->
  dotted_quad dom ->
  exists d bd,
    analyze raw = Ret d /\
    d !! "breakdown"%string = Some (VBreakdown bd) /\
    triggered "ip_url" bd /\
    triggered "suspicious_url" bd /\
    d !! "raw_total"%string = Some (VInt (sum_vals bd)) /\
    50 <= sum_vals bd.
Proof.
  intros Hu Hip Hdom Hq.
  exists (result_of raw), (signals_of raw).
  destruct (result_lookups raw) as (_ & Ht & _ & Hb & _).
  assert (Hi : triggered "ip_url" (signals_of raw)).
  { apply ip_url_iff. by exists u. }
  assert (Hs : triggered "suspicious_url" (signals_of raw)).
  { apply suspicious_url_iff. exists u, dom.
    split; [done|]. split; [done|]. by apply dotted_quad_suspicious. }
  split; [apply analyze_eq|]. split; [exact Hb|]. split; [exact Hi|].
  split; [exact Hs|]. split; [exact Ht|].
  apply triggered_iff in Hi, Hs.
  assert (Ei : nonempty (ip_urls_of raw) = true) by intuition discriminate.
  assert (Es : nonempty (suspicious_urls_of raw) = true) by intuition discriminate.
  rewrite sum_vals_signals_of, Ei, Es.
  pose proof (len_nonneg (hits_of raw)).
  pose proof (bad_tld_count_nonneg raw).
  destruct (nonempty (http_only_of raw)), (len (url_findall raw) >=? 3),
    (nonempty (hits_of raw)), (nonempty (attachments_of raw)), (mismatch_of raw),
    (negb (bad_tld_count_of raw =? 0)); lia.
Qed.

(** On the reference instance the link http://10.0.0.1/x is such a link. *)
Lemma ip_literal_counts_twice_witness :
  exists d bd,
    analyze (L := Ref.libs) ip_link_example = Ret d /\
    d !! "breakdown"%string = Some (VBreakdown bd) /\
    triggered "ip_url" bd /\
    triggered "suspicious_url" bd /\
    d !! "raw_total"%string = Some (VInt (sum_vals bd)) /\
    50 <= sum_vals bd.
Proof.
  apply (ip_literal_counts_twice (L := Ref.libs) ip_link_example
           (str "http://10.0.0.1/x") (str "10.0.0.1")).
  - vm_compute. by left.
  - vm_compute. reflexivity.
  - vm_compute. reflexivity.
  - exists (str "10"), (str "0"), (str "0"), (str "1").
    repeat split; simpl; try lia; repeat constructor.
Defined.

(** ** The highlighted text of the raw tab *)




Lemma replace_absent (s old new : text) :
  old <> [] -> ~ infix old s -> replace s old new = s.
Proof.
  intros Hne Hno. unfold replace. destruct old as [|o old]; [done|].
  induction s as [|c s IH]; [reflexivity|]. cbn [replace_from].
  destruct (startswith (c :: s) (o :: old)) eqn:E.
  - destruct Hno. apply startswith_prefix in E as [rest ->]. by exists [], rest.
  - f_equal. apply IH. intros (pre & post & ->). apply Hno. by exists (c :: pre), post.
Qed.



Lemma result_lists `{L : Libs} (raw : text) :
  get_list (result_of raw) "urls" = url_findall raw /\
  get_list (result_of raw) "keyword_hits" = [].
Proof.
  destruct (result_lookups raw) as (_ & _ & _ & _ & _ & _ & Hu & Hk).
  unfold get_list. by rewrite Hu, Hk.
Qed.

(** X16. A message in which no link prefix and no two consecutive spaces
    occur is displayed in the raw tab exactly as it was entered: no marker
    is inserted and nothing is replaced. *)
Theorem plain_text_shown_as_is `{L : Libs} (raw : text) :
  ~ infix (str "https://") raw ->
  ~ infix (str "http://") raw ->
  ~ infix (str "www.") raw ->
  ~ infix (str "  ") raw ->
  exists d, analyze raw = Ret d /\ highlighted_markdown raw d = raw.
Proof.
  intros H1 H2 H3 Hsp.
  assert (Hu : url_findall raw = []).
  { apply no_prefix_no_urls. intros p [<-|[<-|[<-|[]]]]; assumption. }
  destruct (result_lists raw) as (Eu & Ek).
  exists (result_of raw). split; [apply analyze_eq|].
  unfold highlighted_markdown. rewrite Eu, Ek, Hu. simpl highlight_urls.
  simpl highlight_keywords. apply replace_absent; [discriminate | exact Hsp].
Qed.

Lemma plain_text_shown_as_is_witness :
  exists d,
    analyze (L := Ref.libs) plain_example = Ret d /\
    highlighted_markdown plain_example d = plain_example.
Proof.
  apply (plain_text_shown_as_is (L := Ref.libs) plain_example);
    rewrite <- contains_infix; vm_compute; discriminate.
Defined.

(** X17. The sender_mismatch rule compares the link domains with the last
    label of the sender domain alone: when the sender domain ends with a dot
    and a label (its top-level label) and some link domain ends with the
    same label, the signal does not fire, however different the two domains
    are. A sender at bank.com and a link to evil.com raise no mismatch. *)
Theorem same_tld_never_mismatch `{L : Libs} (raw from_hdr reply_to pre tld ld : text) :
  extract_sender_from_headers raw = Ret (from_hdr, reply_to) ->
  sender_domain_of from_hdr = Ret (pre ++ "."%char :: tld) ->
  ~ In "."%char tld ->
  link_domain raw ld ->
  tld `suffix_of` ld ->
  exists d bd,
    analyze raw = Ret d /\
    d !! "breakdown"%string = Some (VBreakdown bd) /\
    ~ triggered "sender_mismatch" bd.
Proof.
  intros Hh Hsd Hdot Hld Hsuf.
  exists (result_of raw), (signals_of raw).
  destruct (result_lookups raw) as (_ & _ & _ & Hb & _).
  split; [apply analyze_eq|]. split; [exact Hb|].
  intros Ht. apply triggered_iff in Ht.
  assert (Hm : mismatch_of raw = true) by intuition discriminate.
  apply mismatch_iff in Hm as (_ & _ & Hno).
  apply (Hno ld Hld). right; right.
  assert (Es : sender_domain raw = pre ++ "."%char :: tld).
  { unfold sender_domain, headers_of. rewrite Hh. simpl fst. by rewrite Hsd. }
  rewrite Es, last_split_app, split_on_none by exact Hdot. exact Hsuf.
Qed.

Lemma same_tld_never_mismatch_witness :
  exists d bd,
    analyze (L := Ref.libs) same_tld_example = Ret d /\
    d !! "breakdown"%string = Some (VBreakdown bd) /\
    ~ triggered "sender_mismatch" bd.
Proof.
  apply (same_tld_never_mismatch (L := Ref.libs) same_tld_example
           (str "a@bank.com") [] (str "bank") (str "com") (str "evil.com")).
  - vm_compute. reflexivity.
  - vm_compute. reflexivity.
  - vm_compute. intuition discriminate.
  - split; [discriminate|]. exists (str "http://evil.com/x").
    split; [vm_compute; by left | vm_compute; reflexivity].
  - by exists (str "evil.").
Defined.
